(** * PyFiberModes: step-index layer fields and the root search

    A shallow embedding of [PyFiberModes/fiber_geometry/stepindex.py]
    (class [StepIndex]) and [PyFiberModes/solver/base_solver.py]
    (class [BaseSolver]), and the properties of them that the
    specification states.

    Numbers.  A Python [float] is modelled as an exact rational ([Q]):
    rounding, overflow, infinities and NaN operands are left out.  The one
    NaN the code builds itself, the sentinel [numpy.nan] that the root
    search returns, is a constructor of [value].  Comparisons are the
    boolean tests on [Q].  Statements about sums, products and quotients
    are therefore statements of exact arithmetic: in binary64 they hold
    up to rounding, and as long as no magnitude leaves the range of the
    format (where the code would go on with [inf], or raise
    [OverflowError] in [int]).  One function, [update_root_range], is
    given a second time on the machine's floats ([binary64]), to show
    what rounding does to it.

    Division.  A quotient of plain Python floats raises
    [ZeroDivisionError] at a zero divisor and is modelled so ([truediv]):
    these are the quotients by [u] and by [urp] in [c1] and [c2], whose
    operands are the arguments of the methods and the result of
    [math.sqrt], and the solver's [int((highbound - lowbound) / delta)].
    A quotient of two values of [scipy.special] is a quotient of numpy
    scalars, which gives [inf] or [nan] and does not raise; it is the
    total division [x / y] of [Q], so at a zero divisor the quotient is
    an artefact of the model, and no statement below is about such a
    quotient.  A computation that raises keeps neither its log nor the
    attributes it has set.

    Libraries outside the repository ([math.sqrt], [scipy.special],
    [numpy.linalg.solve], [scipy.optimize.brentq] and [root]) and the
    modules of the repository that are not part of the sources at hand
    ([constants], the material models) enter as the fields of classes and
    records, so that every definition is stated for all of them and runs
    once they are given. *)

From Stdlib Require Import ZArith QArith Qabs List Bool Lia Lqa.
From Stdlib Require PrimFloat.
Import ListNotations.
Open Scope Q_scope.

(** ** Python values *)

(** [x < y] on floats. *)
Definition Qlt_bool (x y : Q) : bool := negb (Qle_bool y x).

(** Truth value of a float: [if x:] is [x != 0]. *)
Definition truthy (x : Q) : bool := negb (Qeq_bool x 0).

(** The exceptions the embedded code can raise. *)
Inductive exn : Type :=
| TypeError
| IndexError
| ValueError
| LinAlgError
| ZeroDivisionError.

(** A numpy array of floats, of one or of two dimensions. *)
Inductive ndarray : Type :=
| Arr1 (v : list Q)
| Arr2 (m : list (list Q)).

(** What indexing an array along its first axis gives. *)
Inductive cell : Type :=
| Scalar (x : Q)
| Row (r : list Q).

(** The functions of [scipy.special] that take an order, and those of a
    fixed order. *)
Inductive bessel : Type := Jn | Yn | Iv | Kn | Jvp | Yvp | Ivp | Kvp.
Inductive bessel01 : Type := J0 | Y0 | I0 | K0 | J1 | Y1 | I1 | K1.

(** Calls into the numerical libraries, in the order they are made. *)
Inductive event : Type :=
| Call (f : bessel) (nu : Z) (x : Q)
| Call01 (f : bessel01) (x : Q)
| Solve (a : list (list Q)) (b : ndarray).

(** A computation returns a value and the calls it made, or raises. *)
Inductive M (A : Type) : Type :=
| Done (a : A) (log : list event)
| Raised (e : exn).
Arguments Done {A} a log.
Arguments Raised {A} e.

Definition ret {A : Type} (a : A) : M A := Done a [].

Definition bind {A B : Type} (m : M A) (k : A -> M B) : M B :=
  match m with
  | Done a l =>
      match k a with
      | Done b l' => Done b (l ++ l')
      | Raised e => Raised e
      end
  | Raised e => Raised e
  end.

Notation "x <- m ;; k" := (bind m (fun x => k))
  (at level 61, m at next level, right associativity).
Notation "' pat <- m ;; k" := (bind m (fun x => match x with pat => k end))
  (at level 61, pat pattern, m at next level, right associativity).

Definition log_of {A : Type} (m : M A) : list event :=
  match m with Done _ l => l | Raised _ => [] end.

(** [x / y] on plain floats: a zero divisor raises. *)
Definition truediv (x y : Q) : M Q :=
  if Qeq_bool y 0 then Raised ZeroDivisionError else ret (x / y).

(** [xs[i]] on a list or a one-dimensional array. *)
Definition getitem (xs : list Q) (i : nat) : M Q :=
  match nth_error xs i with
  | Some x => ret x
  | None => Raised IndexError
  end.

Fixpoint list_set {A : Type} (xs : list A) (i : nat) (x : A) : list A :=
  match xs, i with
  | [], _ => []
  | _ :: t, O => x :: t
  | h :: t, S j => h :: list_set t j x
  end.

(** ** numpy *)

Definition numpy_zeros (n : nat) : list Q := repeat 0 n.
Definition numpy_zeros2 (n m : nat) : list (list Q) := repeat (repeat 0 m) n.

(** [a[i, j] = x] for indices inside the array (every use below has
    literal indices inside a freshly made array). *)
Definition set2 (a : list (list Q)) (i j : nat) (x : Q) : list (list Q) :=
  match nth_error a i with
  | Some r => list_set a i (list_set r j x)
  | None => a
  end.

(** [a[i]]. *)
Definition getrow (a : ndarray) (i : nat) : M cell :=
  match a with
  | Arr1 v =>
      match nth_error v i with
      | Some x => ret (Scalar x)
      | None => Raised IndexError
      end
  | Arr2 m =>
      match nth_error m i with
      | Some r => ret (Row r)
      | None => Raised IndexError
      end
  end.

Fixpoint zip_with (f : Q -> Q -> Q) (r s : list Q) : list Q :=
  match r, s with
  | x :: r', y :: s' => f x y :: zip_with f r' s'
  | _, _ => []
  end.

(** Element-wise arithmetic with numpy's broadcasting of scalars and of
    rows of length one. *)
Definition cell_op (f : Q -> Q -> Q) (c d : cell) : M cell :=
  match c, d with
  | Scalar x, Scalar y => ret (Scalar (f x y))
  | Scalar x, Row s => ret (Row (map (f x) s))
  | Row r, Scalar y => ret (Row (map (fun x => f x y) r))
  | Row r, Row s =>
      if Nat.eqb (length r) (length s) then ret (Row (zip_with f r s))
      else match r, s with
           | [x], _ => ret (Row (map (f x) s))
           | _, [y] => ret (Row (map (fun x => f x y) r))
           | _, _ => Raised ValueError
           end
  end.

Definition cell_add : cell -> cell -> M cell := cell_op Qplus.
Definition cell_sub : cell -> cell -> M cell := cell_op Qminus.

Definition cell_scale (k : Q) (c : cell) : cell :=
  match c with
  | Scalar x => Scalar (k * x)
  | Row r => Row (map (Qmult k) r)
  end.

(** [a[i] = c]. *)
Definition setrow (a : ndarray) (i : nat) (c : cell) : M ndarray :=
  match a, c with
  | Arr1 v, Scalar x =>
      if Nat.ltb i (length v) then ret (Arr1 (list_set v i x))
      else Raised IndexError
  | Arr1 v, Row _ =>
      if Nat.ltb i (length v) then Raised ValueError else Raised IndexError
  | Arr2 m, Scalar x =>
      match nth_error m i with
      | Some old => ret (Arr2 (list_set m i (map (fun _ => x) old)))
      | None => Raised IndexError
      end
  | Arr2 m, Row r =>
      match nth_error m i with
      | Some old =>
          if Nat.eqb (length r) (length old) then ret (Arr2 (list_set m i r))
          else match r with
               | [x] => ret (Arr2 (list_set m i (map (fun _ => x) old)))
               | _ => Raised ValueError
               end
      | None => Raised IndexError
      end
  end.

(** [a.take(idx)] for a pair of indices: the array is flattened first. *)
Definition flatten (a : ndarray) : list Q :=
  match a with
  | Arr1 v => v
  | Arr2 m => concat m
  end.

Definition take (a : ndarray) (idx : nat * nat) : M ndarray :=
  x <- getitem (flatten a) (fst idx) ;;
  y <- getitem (flatten a) (snd idx) ;;
  ret (Arr1 [x; y]).

(** [c[:2] = x] and [c[2:] = x] on a one-dimensional array of four. *)
Definition set_slice (c : list Q) (start : nat) (x : ndarray) : M (list Q) :=
  match x with
  | Arr1 [x0; x1] => ret (list_set (list_set c start x0) (S start) x1)
  | Arr1 [x0] => ret (list_set (list_set c start x0) (S start) x0)
  | _ => Raised ValueError
  end.

(** ** The collaborators of a layer *)

(** Modelled from the spec: the class [Wavelength] is not among the
    sources; the spec gives it as an immutable value that carries the
    wavelength and its vacuum wavenumber [k0]. *)
Module Wavelength.
Record t : Type := mk { value : Q; k0 : Q }.
End Wavelength.

(** A material model, used through [get_refractive_index] only. *)
Record Material : Type := {
  get_refractive_index : Wavelength.t -> list Q -> Q
}.

(** The attributes of a [StepIndex] layer that the code reads ([Geometry],
    its base class, is not among the sources), and [C], which [EH_fields]
    writes. *)
Record StepIndex : Type := {
  radius_in : Q;
  radius_out : Q;
  material_type : Material;
  material_parameter : list Q;
  C : option ndarray
}.

Definition set_C (self : StepIndex) (c : ndarray) : StepIndex :=
  {| radius_in := radius_in self;
     radius_out := radius_out self;
     material_type := material_type self;
     material_parameter := material_parameter self;
     C := Some c |}.

(** Modelled from the spec: the module [constants] is not among the
    sources; the spec names [Y0], the reciprocal of the vacuum
    impedance [eta0]. *)
Module constants.
Class t : Type := { Y0 : Q; eta0 : Q }.
End constants.

(** The numerical libraries: [math.sqrt], [numpy.pi], the Bessel functions
    of [scipy.special] and [numpy.linalg.solve], which fails on a singular
    matrix. *)
Class Numerics : Type := {
  sqrt : Q -> Q;
  numpy_pi : Q;
  special : bessel -> Z -> Q -> Q;
  special01 : bessel01 -> Q -> Q;
  numpy_linalg_solve : list (list Q) -> ndarray -> option ndarray
}.

Section scipy_special.
Context `{Numerics}.

Definition call (f : bessel) (nu : Z) (x : Q) : M Q :=
  Done (special f nu x) [Call f nu x].
Definition call01 (f : bessel01) (x : Q) : M Q :=
  Done (special01 f x) [Call01 f x].

Definition jn := call Jn.
Definition yn := call Yn.
Definition iv := call Iv.
Definition kn := call Kn.
Definition jvp := call Jvp.
Definition yvp := call Yvp.
Definition ivp := call Ivp.
Definition kvp := call Kvp.
Definition j0 := call01 J0.
Definition y0 := call01 Y0.
Definition i0 := call01 I0.
Definition k0 := call01 K0.
Definition j1 := call01 J1.
Definition y1 := call01 Y1.
Definition i1 := call01 I1.
Definition k1 := call01 K1.

Definition solve (a : list (list Q)) (b : ndarray) : M ndarray :=
  match numpy_linalg_solve a b with
  | Some x => Done x [Solve a b]
  | None => Raised LinAlgError
  end.
End scipy_special.

(** ** class StepIndex *)

(** The basis-function ratios and the scale [c1] that the two boundary
    matchers and the field evaluation compute in their regime branch. *)
Record ratios : Type := {
  F1 : Q; F2 : Q; F3 : Q; F4 : Q; c1 : Q
}.

Section StepIndex.
Context `{Numerics} `{constants.t}.

Definition get_index (self : StepIndex) (radius : Q)
    (wavelength : Wavelength.t) : option Q :=
  if Qle_bool (radius_in self) (Qabs radius)
     && Qle_bool (Qabs radius) (radius_out self)
  then Some (get_refractive_index (material_type self) wavelength
               (material_parameter self))
  else None.

Definition get_minimum_index (self : StepIndex)
    (wavelength : Wavelength.t) : Q :=
  get_refractive_index (material_type self) wavelength
    (material_parameter self).

Definition get_maximum_index (self : StepIndex)
    (wavelength : Wavelength.t) : Q :=
  get_refractive_index (material_type self) wavelength
    (material_parameter self).

(** [None ** 2] raises [TypeError]. *)
Definition get_U_W_parameter (self : StepIndex) (radius neff : Q)
    (wavelength : Wavelength.t) : M Q :=
  match get_index self radius wavelength with
  | Some refractive_index =>
      ret (Wavelength.k0 wavelength * radius
           * sqrt (Qabs (refractive_index ^ 2 - neff ^ 2)))
  | None => Raised TypeError
  end.

Definition Psi (self : StepIndex) (radius neff : Q)
    (wavelength : Wavelength.t) (nu : Z) (C : list Q) : M (Q * Q) :=
  u <- get_U_W_parameter self radius neff wavelength ;;
  let layer_max_index := get_maximum_index self wavelength in
  if Qlt_bool neff layer_max_index then
    C1 <- getitem C 1 ;;
    if truthy C1 then
      C0 <- getitem C 0 ;;
      j <- jn nu u ;; y <- yn nu u ;;
      let psi := C0 * j + C1 * y in
      jp <- jvp nu u ;; yp <- yvp nu u ;;
      let psip := u * C0 * jp + C1 * yp in
      ret (psi, psip)
    else
      C0 <- getitem C 0 ;;
      j <- jn nu u ;;
      let psi := C0 * j in
      jp <- jvp nu u ;;
      let psip := u * C0 * jp in
      ret (psi, psip)
  else
    C1 <- getitem C 1 ;;
    if truthy C1 then
      C0 <- getitem C 0 ;;
      i <- iv nu u ;; k <- kn nu u ;;
      let psi := C0 * i + C1 * k in
      ip <- ivp nu u ;; kp <- kvp nu u ;;
      let psip := u * C0 * ip + C1 * kp in
      ret (psi, psip)
    else
      C0 <- getitem C 0 ;;
      i <- iv nu u ;;
      let psi := C0 * i in
      ip <- ivp nu u ;;
      let psip := u * C0 * ip in
      ret (psi, psip).

Definition lpConstants (self : StepIndex) (radius neff : Q)
    (wavelength : Wavelength.t) (nu : Z) (A : list Q) : M (Q * Q) :=
  u <- get_U_W_parameter self radius neff wavelength ;;
  let maximum_index := get_maximum_index self wavelength in
  if Qlt_bool neff maximum_index then
    yp <- yvp nu u ;; A0 <- getitem A 0 ;;
    y <- yn nu u ;; A1 <- getitem A 1 ;;
    let term_0 := numpy_pi / 2 * (u * yp * A0 - y * A1) in
    j <- jn nu u ;; jp <- jvp nu u ;;
    let term_1 := numpy_pi / 2 * (j * A1 - u * jp * A0) in
    ret (term_0, term_1)
  else
    kp <- kvp nu u ;; A0 <- getitem A 0 ;;
    k <- kn nu u ;; A1 <- getitem A 1 ;;
    let term_0 := u * kp * A0 - k * A1 in
    i <- iv nu u ;; ip <- ivp nu u ;;
    let term_1 := i * A1 - u * ip * A0 in
    ret (term_0, term_1).

(** The regime branch of [vConstants]. *)
Definition vConstants_F (nu : Z) (neff maximum_index u urp : Q)
    (wavelength : Wavelength.t) (radius_out : Q) : M ratios :=
  if Qlt_bool neff maximum_index then
    B1 <- jn nu u ;;
    B2 <- yn nu u ;;
    a <- jn nu urp ;; let F1 := a / B1 in
    b <- yn nu urp ;; let F2 := b / B2 in
    c <- jvp nu urp ;; let F3 := c / B1 in
    d <- yvp nu urp ;; let F4 := d / B2 in
    c1 <- truediv (Wavelength.k0 wavelength * radius_out) u ;;
    ret {| F1 := F1; F2 := F2; F3 := F3; F4 := F4; c1 := c1 |}
  else
    B1 <- iv nu u ;;
    B2 <- kn nu u ;;
    F1 <- (if truthy u then a <- iv nu urp ;; ret (a / B1) else ret 1) ;;
    b <- kn nu urp ;; let F2 := b / B2 in
    F3 <- (if truthy u then c <- ivp nu urp ;; ret (c / B1) else ret 1) ;;
    d <- kvp nu urp ;; let F4 := d / B2 in
    c1 <- truediv (- Wavelength.k0 wavelength * radius_out) u ;;
    ret {| F1 := F1; F2 := F2; F3 := F3; F4 := F4; c1 := c1 |}.

Definition vConstants (self : StepIndex) (radius_in radius_out neff : Q)
    (wavelength : Wavelength.t) (nu : Z) (EH : ndarray) : M ndarray :=
  let a := numpy_zeros2 4 4 in
  let maximum_index := get_maximum_index self wavelength in
  u <- get_U_W_parameter self radius_out neff wavelength ;;
  urp <- get_U_W_parameter self radius_in neff wavelength ;;
  r <- vConstants_F nu neff maximum_index u urp wavelength radius_out ;;
  q <- truediv (neff * inject_Z nu) urp ;;
  let c2 := q * c1 r in
  let c3 := constants.eta0 * c1 r in
  let c4 := constants.Y0 * maximum_index ^ 2 * c1 r in
  let a := set2 a 0 0 (F1 r) in
  let a := set2 a 0 1 (F2 r) in
  let a := set2 a 1 2 (F1 r) in
  let a := set2 a 1 3 (F2 r) in
  let a := set2 a 2 0 (F1 r * c2) in
  let a := set2 a 2 1 (F2 r * c2) in
  let a := set2 a 2 2 (- F3 r * c3) in
  let a := set2 a 2 3 (- F4 r * c3) in
  let a := set2 a 3 0 (F3 r * c4) in
  let a := set2 a 3 1 (F4 r * c4) in
  let a := set2 a 3 2 (- F1 r * c2) in
  let a := set2 a 3 3 (- F2 r * c2) in
  solve a EH.

(** The regime branch of [tetmConstants]. *)
Definition tetmConstants_F (neff maximum_index u urp : Q)
    (wavelength : Wavelength.t) (radius_out : Q) : M ratios :=
  if Qlt_bool neff maximum_index then
    B1 <- j0 u ;;
    B2 <- y0 u ;;
    a <- j0 urp ;; let F1 := a / B1 in
    b <- y0 urp ;; let F2 := b / B2 in
    c <- j1 urp ;; let F3 := - c / B1 in
    d <- y1 urp ;; let F4 := - d / B2 in
    c1 <- truediv (Wavelength.k0 wavelength * radius_out) u ;;
    ret {| F1 := F1; F2 := F2; F3 := F3; F4 := F4; c1 := c1 |}
  else
    B1 <- i0 u ;;
    B2 <- k0 u ;;
    a <- i0 urp ;; let F1 := a / B1 in
    b <- k0 urp ;; let F2 := b / B2 in
    c <- i1 urp ;; let F3 := c / B1 in
    d <- k1 urp ;; let F4 := - d / B2 in
    c1 <- truediv (- Wavelength.k0 wavelength * radius_out) u ;;
    ret {| F1 := F1; F2 := F2; F3 := F3; F4 := F4; c1 := c1 |}.

(** [numpy.empty((2, 2))]: every entry is written before the array is
    read. *)
Definition tetmConstants (self : StepIndex) (radius_in radius_out neff : Q)
    (wavelength : Wavelength.t) (EH : ndarray) (c : Q) (idx : nat * nat)
    : M ndarray :=
  let a := numpy_zeros2 2 2 in
  let maximum_index := get_maximum_index self wavelength in
  u <- get_U_W_parameter self radius_out neff wavelength ;;
  urp <- get_U_W_parameter self radius_in neff wavelength ;;
  r <- tetmConstants_F neff maximum_index u urp wavelength radius_out ;;
  let c3 := c * c1 r in
  let a := set2 a 0 0 (F1 r) in
  let a := set2 a 0 1 (F2 r) in
  let a := set2 a 1 0 (F3 r * c3) in
  let a := set2 a 1 1 (F4 r * c3) in
  b <- take EH idx ;;
  solve a b.

(** The coefficients [self.C] that [EH_fields] sets before it computes
    the fields. *)
Definition EH_fields_C (self : StepIndex) (radius_in radius_out : Q)
    (nu : Z) (neff : Q) (wavelength : Wavelength.t) (EH : ndarray)
    (TM : bool) : M ndarray :=
  let maximum_index := get_maximum_index self wavelength in
  if Qeq_bool radius_in 0 then
    if Z.eqb nu 0 then
      if TM then ret (Arr1 [1; 0; 0; 0])
      else ret (Arr1 [0; 0; 1; 0])
    else
      let C := numpy_zeros2 4 2 in
      let C := set2 C 0 0 1 in
      let C := set2 C 2 1 1 in
      ret (Arr2 C)
  else if Z.eqb nu 0 then
    let C := numpy_zeros 4 in
    if TM then
      let c := constants.Y0 * maximum_index ^ 2 in
      let idx := (0%nat, 3%nat) in
      x <- tetmConstants self radius_in radius_out neff wavelength EH c idx ;;
      C <- set_slice C 0 x ;;
      ret (Arr1 C)
    else
      let c := - constants.eta0 in
      let idx := (1%nat, 2%nat) in
      x <- tetmConstants self radius_in radius_out neff wavelength EH c idx ;;
      C <- set_slice C 2 x ;;
      ret (Arr1 C)
  else
    vConstants self radius_in radius_out neff wavelength nu EH.

(** The regime branch of [EH_fields]: [c1], [F3] and [F4]. *)
Definition EH_fields_F (nu : Z) (neff maximum_index u : Q)
    (wavelength : Wavelength.t) (radius_out : Q) : M (Q * Q * Q) :=
  if Qlt_bool neff maximum_index then
    c1 <- truediv (Wavelength.k0 wavelength * radius_out) u ;;
    a <- jvp nu u ;; b <- jn nu u ;; let F3 := a / b in
    c <- yvp nu u ;; d <- yn nu u ;; let F4 := c / d in
    ret (c1, F3, F4)
  else
    c1 <- truediv (- Wavelength.k0 wavelength * radius_out) u ;;
    a <- ivp nu u ;; b <- iv nu u ;; let F3 := a / b in
    c <- kvp nu u ;; d <- kn nu u ;; let F4 := c / d in
    ret (c1, F3, F4).

(** [EH] is modified in place and returned; the layer is returned with
    its new [C]. *)
Definition EH_fields (self : StepIndex) (radius_in radius_out : Q)
    (nu : Z) (neff : Q) (wavelength : Wavelength.t) (EH : ndarray)
    (TM : bool) : M (StepIndex * ndarray) :=
  let maximum_index := get_maximum_index self wavelength in
  u <- get_U_W_parameter self radius_out neff wavelength ;;
  C <- EH_fields_C self radius_in radius_out nu neff wavelength EH TM ;;
  let self := set_C self C in
  ' (c1, F3, F4) <- EH_fields_F nu neff maximum_index u wavelength radius_out ;;
  q <- truediv (neff * inject_Z nu) u ;;
  let c2 := q * c1 in
  let c3 := constants.eta0 * c1 in
  let c4 := constants.Y0 * maximum_index ^ 2 * c1 in
  C0 <- getrow C 0 ;; C1 <- getrow C 1 ;;
  e0 <- cell_add C0 C1 ;;
  EH <- setrow EH 0 e0 ;;
  C2 <- getrow C 2 ;; C3 <- getrow C 3 ;;
  e1 <- cell_add C2 C3 ;;
  EH <- setrow EH 1 e1 ;;
  s01 <- cell_add C0 C1 ;;
  f23 <- cell_add (cell_scale F3 C2) (cell_scale F4 C3) ;;
  e2 <- cell_sub (cell_scale c2 s01) (cell_scale c3 f23) ;;
  EH <- setrow EH 2 e2 ;;
  f01 <- cell_add (cell_scale F3 C0) (cell_scale F4 C1) ;;
  s23 <- cell_add C2 C3 ;;
  e3 <- cell_sub (cell_scale c4 f01) (cell_scale c2 s23) ;;
  EH <- setrow EH 3 e3 ;;
  ret (self, EH).
End StepIndex.

(** ** class BaseSolver *)

(** A float that the root search returns: a number or [numpy.nan]. *)
Inductive value : Type :=
| Real (x : Q)
| nan.

(** The iteration budget [maxiter]: an [int], or [numpy.inf], the
    default. *)
Inductive count : Type :=
| Int (n : Z)
| inf.

Inductive level : Type := DEBUG | INFO | WARNING.

(** The messages of the solver, with the values they format. *)
Inductive message : Type :=
| no_root_within_range
| skipped (fa fz fb : Q)
| maxiter_reached (maxiter : count) (lowbound : Q) (highbound : option Q)
| root_outside_of_range (x x_low x_high : Q)
| max_iteration_reached.

Record log_record : Type := { lvl : level; msg : message }.

Definition logger_debug (m : message) : list log_record :=
  [{| lvl := DEBUG; msg := m |}].
Definition logger_info (m : message) : list log_record :=
  [{| lvl := INFO; msg := m |}].
Definition logger_warning (m : message) : list log_record :=
  [{| lvl := WARNING; msg := m |}].

(** What a call does: it returns a float, having logged some records, or
    raises, or is still looping when the fuel of the model runs out. *)
Inductive outcome : Type :=
| Return (v : value) (log : list log_record)
| Raise (e : exn)
| OutOfFuel.

(** [scipy.optimize]: [brentq(f, a, b, args, xtol)] and the first
    component of [root(fun, x0, args).x]. *)
Class Optimize : Type := {
  brentq : forall Args : Type, (Q -> Args -> Q) -> Q -> Q -> Args -> Q -> Q;
  root : forall Args : Type, (Q -> Args -> Q) -> Q -> Args -> Q
}.
Arguments brentq {_ Args} f a b args xtol.
Arguments root {_ Args} f x0 args.

(** The default [xtol] of [brentq], [2e-12]. *)
Definition brentq_xtol : Q := 2 / 10 ^ 12.

(** [int(x)]: truncation toward zero. *)
Definition int (x : Q) : Z := Z.quot (Qnum x) (Zpos (Qden x)).

(** [numpy.sign]. *)
Definition numpy_sign (x : Q) : Z := Z.sgn (Qnum x).

(** [if highbound:] on an optional float: [None] and [0.0] are false. *)
Definition truthy_opt (x : option Q) : bool :=
  match x with
  | Some h => truthy h
  | None => false
  end.

(** [(b > highbound > lowbound) or (b < highbound < lowbound)]. *)
Definition crosses (b : Q) (highbound : option Q) (lowbound : Q) : bool :=
  match highbound with
  | Some h =>
      (Qlt_bool h b && Qlt_bool lowbound h)
      || (Qlt_bool b h && Qlt_bool h lowbound)
  | None => false
  end.

(** [(fa > 0 and fb < 0) or (fa < 0 and fb > 0)]. *)
Definition sign_change (fa fb : Q) : bool :=
  (Qlt_bool 0 fa && Qlt_bool fb 0) || (Qlt_bool fa 0 && Qlt_bool 0 fb).

(** [abs(fa) > abs(fz) < abs(fb)], the test that skips
    discontinuities. *)
Definition attenuates (fa fz fb : Q) : bool :=
  Qlt_bool (Qabs fz) (Qabs fa) && Qlt_bool (Qabs fz) (Qabs fb).

(** One turn of a [for] loop: it returns from the function or goes on
    with a new state. *)
Inductive step (S : Type) : Type :=
| Stop (v : value) (log : list log_record)
| Next (s : S).
Arguments Stop {S} v log.
Arguments Next {S} s.

(** The state of the scan: the last sample [a], [fa], and the points
    [ipoints] still to visit. *)
Record scan_state : Type := {
  scan_a : Q; scan_fa : Q; scan_ipoints : list Q
}.

(** How a scan ends: with a [return], or with its budget used up. *)
Inductive scan_result : Type :=
| Found (v : value) (log : list log_record)
| Exhausted (ipoints : list Q).

(** [b = ipoints.pop(0) if ipoints else a + delta]: the next sample and
    the points left. *)
Definition next_sample (delta : Q) (s : scan_state) : Q * list Q :=
  match scan_ipoints s with
  | b :: rest => (b, rest)
  | [] => (scan_a s + delta, [])
  end.

Section BaseSolver.
Context `{Optimize} {Args : Type}.
Variable function : Q -> Args -> Q.
Variable function_args : Args.

Section find_function_first_root.
Variable lowbound : Q.
Variable highbound : option Q.
Variable delta : Q.

(** The body of [for i in range(1, maxiter + 1)]. *)
Definition scan_step (s : scan_state) : step scan_state :=
  let a := scan_a s in
  let fa := scan_fa s in
  let (b, ipoints) := next_sample delta s in
  if truthy_opt highbound && crosses b highbound lowbound then
    Stop nan (logger_info no_root_within_range)
  else
    let fb := function b function_args in
    if Qeq_bool fb 0 then Stop (Real b) []
    else if sign_change fa fb then
      let z := brentq function a b function_args (1 / 10 ^ 20) in
      let fz := function z function_args in
      if attenuates fa fz fb then
        Stop (Real z) (logger_debug (skipped fa fz fb))
      else
        Next {| scan_a := b; scan_fa := fb; scan_ipoints := ipoints |}
    else
      Next {| scan_a := b; scan_fa := fb; scan_ipoints := ipoints |}.

(** The [for] loop, [n] turns of it. *)
Fixpoint scan (n : nat) (s : scan_state) : scan_result :=
  match n with
  | O => Exhausted (scan_ipoints s)
  | S n' =>
      match scan_step s with
      | Stop v log => Found v log
      | Next s' => scan n' s'
      end
  end.
End find_function_first_root.

(** The budget that each turn of [while True] starts with.  (The quotient
    is exact here; on floats it can overflow, and [int] then raises
    [OverflowError].) *)
Definition scan_budget (lowbound : Q) (highbound : option Q)
    (ipoints : list Q) (delta : Q) (maxiter : count) : exn + count :=
  match ipoints with
  | _ :: _ => inr (Int (Z.of_nat (length ipoints)))
  | [] =>
      match highbound with
      | Some h =>
          if truthy h then
            if Qeq_bool delta 0 then inl ZeroDivisionError
            else inr (Int (int ((h - lowbound) / delta)))
          else inr maxiter
      | None => inr maxiter
      end
  end.

(** [fuel] bounds the turns of [while True]; [range] refuses
    [numpy.inf]. *)
Fixpoint find_function_first_root (fuel : nat) (lowbound : Q)
    (highbound : option Q) (ipoints : list Q) (delta : Q)
    (maxiter : count) : outcome :=
  match fuel with
  | O => OutOfFuel
  | S fuel' =>
      match scan_budget lowbound highbound ipoints delta maxiter with
      | inl e => Raise e
      | inr maxiter =>
          let a := lowbound in
          let fa := function a function_args in
          if Qeq_bool fa 0 then Return (Real a) []
          else
            match maxiter with
            | inf => Raise TypeError
            | Int m =>
                match scan lowbound highbound delta (Z.to_nat m)
                        {| scan_a := a; scan_fa := fa;
                           scan_ipoints := ipoints |} with
                | Found v log => Return v log
                | Exhausted ipoints' =>
                    if truthy_opt highbound && Z.ltb m 100 then
                      find_function_first_root fuel' lowbound highbound
                        ipoints' (delta / 10) maxiter
                    else
                      Return nan
                        (logger_info
                           (maxiter_reached maxiter lowbound highbound))
                end
            end
      end
  end.

Definition find_root_within_range (x_low x_high : Q) (max_iteration : Z)
    : value * list log_record :=
  let x := root function x_low function_args in
  if negb (Qlt_bool x_low x && Qlt_bool x x_high) then
    (Real x, logger_warning (root_outside_of_range x x_low x_high))
  else
    (Real x, []).

Definition update_root_range (x_low x_high y_low y_high : Q)
    : Q * Q * Q * Q :=
  let x_mid := (x_low + x_high) / 2 in
  let y_mid := function x_mid function_args in
  if Qlt_bool 0 y_mid then
    (x_low, x_mid, y_low, y_mid)
  else
    (x_mid, x_high, y_mid, y_high).

(** The state of the loop of [_find_root_within_range]. *)
Definition bracket : Type := (Q * Q * Q * Q)%type.

(** The body of [for j in range(max_iteration)]. *)
Definition bracket_step (s : bracket) : step bracket :=
  let '(x_low, x_high, y_low, y_high) := s in
  let next := Next (update_root_range x_low x_high y_low y_high) in
  if negb (Z.eqb (numpy_sign y_low) (numpy_sign y_high)) then
    let x_root := brentq function x_low x_high function_args brentq_xtol in
    let y_root := function x_root function_args in
    if attenuates y_low y_root y_high then Stop (Real x_root) []
    else next
  else next.

Fixpoint bracket_loop (n : nat) (s : bracket) : value * list log_record :=
  match n with
  | O => (nan, logger_warning max_iteration_reached)
  | S n' =>
      match bracket_step s with
      | Stop v log => (v, log)
      | Next s' => bracket_loop n' s'
      end
  end.

Definition _find_root_within_range (x_low x_high : Q) (max_iteration : Z)
    : value * list log_record :=
  let y_low := function x_low function_args in
  let y_high := function x_high function_args in
  bracket_loop (Z.to_nat max_iteration) (x_low, x_high, y_low, y_high).
End BaseSolver.

(** ** The machine's floats

    [update_root_range] once more, on binary64 numbers, for what rounding
    does to its midpoint. *)
Module binary64.
Import PrimFloat.

Definition update_root_range {Args : Type}
    (function : float -> Args -> float) (function_args : Args)
    (x_low x_high y_low y_high : float) : float * float * float * float :=
  let x_mid := ((x_low + x_high) / 2)%float in
  let y_mid := function x_mid function_args in
  if (0 <? y_mid)%float then
    (x_low, x_mid, y_low, y_mid)
  else
    (x_mid, x_high, y_mid, y_high).

(** The width of an interval, and the half of a number. *)
Definition width (x_low x_high : float) : float := (x_high - x_low)%float.
Definition half (x : float) : float := (x / 2)%float.

(** The floats that the literals [0.1], [0.2] and [0.15000000000000002]
    denote. *)
Definition tenth : float := 0x1.999999999999ap-4%float.
Definition fifth : float := 0x1.999999999999ap-3%float.
Definition above_three_twentieths : float := 0x1.3333333333334p-3%float.
End binary64.

(** ** Notions the statements use *)

(** The two families of basis functions. *)
Definition ordinary (f : bessel) : bool :=
  match f with
  | Jn | Yn | Jvp | Yvp => true
  | _ => false
  end.

Definition modified (f : bessel) : bool :=
  match f with
  | Iv | Kn | Ivp | Kvp => true
  | _ => false
  end.

(** Some Bessel function was called, and every call made was to a
    function of the family [fam], at the order [nu]. *)
Definition selects (fam : bessel -> bool) (nu : Z) (log : list event) : bool :=
  match log with
  | [] => false
  | _ :: _ =>
      forallb (fun e =>
                 match e with
                 | Call f nu' _ => fam f && Z.eqb nu' nu
                 | _ => false
                 end) log
  end.

(** No linear system was solved. *)
Definition no_solve (log : list event) : bool :=
  forallb (fun e => match e with Solve _ _ => false | _ => true end) log.

(** The scan gets from one state to another in [k] turns, none of which
    returns. *)
Inductive scan_reaches `{Optimize} {Args : Type} (function : Q -> Args -> Q)
    (function_args : Args) (lowbound : Q) (highbound : option Q) (delta : Q)
    : nat -> scan_state -> scan_state -> Prop :=
| reach_here (s : scan_state) :
    scan_reaches function function_args lowbound highbound delta 0 s s
| reach_next (k : nat) (s s' s'' : scan_state) :
    scan_step function function_args lowbound highbound delta s = Next s' ->
    scan_reaches function function_args lowbound highbound delta k s' s'' ->
    scan_reaches function function_args lowbound highbound delta (S k) s s''.

(** The field vector that [EH_fields] can write its four results into:
    four scalars for [nu = 0], four rows of two otherwise. *)
Definition fits (nu : Z) (EH : ndarray) : bool :=
  if Z.eqb nu 0 then
    match EH with
    | Arr1 [_; _; _; _] => true
    | _ => false
    end
  else
    match EH with
    | Arr2 [[_; _]; [_; _]; [_; _]; [_; _]] => true
    | _ => false
    end.

(** The coefficients of the innermost layer. *)
Definition unit_excitation (nu : Z) (TM : bool) : ndarray :=
  if Z.eqb nu 0 then
    if TM then Arr1 [1; 0; 0; 0] else Arr1 [0; 0; 1; 0]
  else
    Arr2 [[1; 0]; [0; 0]; [0; 1]; [0; 0]].

(** ** Stand-ins for the libraries

    Where a statement is run on a concrete input, the libraries are
    replaced by these rational stand-ins: the values of the Bessel
    functions at the arguments [0] and [2] and the orders [0] and [1]
    (five decimals; the functions of the second kind, unbounded at [0],
    are given [-1] and [1] there), a square root that is exact on the
    squares of rationals, Cramer's rule for two unknowns, bisection for
    [brentq] and one secant step for [root]. *)

Definition decimal (n : Z) : Q := n # 100000.

Definition table_special (f : bessel) (nu : Z) (x : Q) : Q :=
  if Qeq_bool x 0 then
    match f with
    | Jn | Iv => if Z.eqb nu 0 then 1 else 0
    | Jvp | Ivp => if Z.eqb nu 1 then 1 / 2 else 0
    | Yn | Kvp => - (1)
    | Kn | Yvp => 1
    end
  else if Qeq_bool x 2 then
    match f, Z.eqb nu 0 with
    | Jn, true => decimal 22389
    | Jn, false => decimal 57672
    | Yn, true => decimal 51038
    | Yn, false => decimal (-10703)
    | Jvp, true => decimal (-57672)
    | Jvp, false => decimal (-6447)
    | Yvp, true => decimal 10703
    | Yvp, false => decimal 56389
    | Iv, true => decimal 227959
    | Iv, false => decimal 159064
    | Kn, true => decimal 11389
    | Kn, false => decimal 13987
    | Ivp, true => decimal 159064
    | Ivp, false => decimal 148427
    | Kvp, true => decimal (-13987)
    | Kvp, false => decimal (-18383)
    end
  else 1.

Definition table_special01 (f : bessel01) (x : Q) : Q :=
  match f with
  | J0 => table_special Jn 0 x
  | Y0 => table_special Yn 0 x
  | I0 => table_special Iv 0 x
  | K0 => table_special Kn 0 x
  | J1 => table_special Jn 1 x
  | Y1 => table_special Yn 1 x
  | I1 => table_special Iv 1 x
  | K1 => table_special Kn 1 x
  end.

Definition rational_sqrt (x : Q) : Q :=
  let y := Qred x in Z.sqrt (Qnum y) # Pos.sqrt (Qden y).

Definition cramer (a : list (list Q)) (b : ndarray) : option ndarray :=
  match a, b with
  | [[a00; a01]; [a10; a11]], Arr1 [b0; b1] =>
      let det := a00 * a11 - a01 * a10 in
      if Qeq_bool det 0 then None
      else Some (Arr1 [(b0 * a11 - a01 * b1) / det;
                       (a00 * b1 - b0 * a10) / det])
  | _, _ => None
  end.

Definition table_numerics : Numerics := {|
  sqrt := rational_sqrt;
  numpy_pi := 355 # 113;
  special := table_special;
  special01 := table_special01;
  numpy_linalg_solve := cramer
|}.

Definition table_constants : constants.t := {|
  constants.Y0 := 1 # 377;
  constants.eta0 := 377
|}.

Fixpoint bisection {Args : Type} (n : nat) (f : Q -> Args -> Q) (a b : Q)
    (args : Args) : Q :=
  let m := Qred ((a + b) / 2) in
  match n with
  | O => m
  | S n' =>
      let fm := f m args in
      if Qeq_bool fm 0 then m
      else if sign_change (f a args) fm then bisection n' f a m args
      else bisection n' f m b args
  end.

Definition secant {Args : Type} (f : Q -> Args -> Q) (x0 : Q) (args : Args)
    : Q :=
  Qred (x0 - f x0 args / (f (x0 + 1) args - f x0 args)).

Definition bisection_optimize : Optimize := {|
  brentq := fun Args f a b args _ => bisection 10 f a b args;
  root := fun Args f x0 args => secant f x0 args
|}.

(** A core of index [5/4] between the radii [0] and [2], and a wavelength
    of wavenumber [1]. *)
Definition constant_index (n : Q) : Material :=
  {| get_refractive_index := fun _ _ => n |}.

Definition core : StepIndex := {|
  radius_in := 0;
  radius_out := 2;
  material_type := constant_index (5 # 4);
  material_parameter := [];
  C := None
|}.

Definition unit_wavenumber : Wavelength.t :=
  {| Wavelength.value := 2 * (355 # 113); Wavelength.k0 := 1 |}.

(** A cladding of the same index between the radii [1/3] and [2/3]. *)
Definition cladding : StepIndex := {|
  radius_in := 1 # 3;
  radius_out := 2 # 3;
  material_type := constant_index (5 # 4);
  material_parameter := [];
  C := None
|}.

(** A function with a simple pole at [1/3], of residue [1e-30], and no
    zero: [(x - 1/3) + 1e-30 / (x - 1/3)].  No float is [1/3]; the value
    there, which the rationals must give, is set to [1]. *)
Definition tiny_pole : Q -> unit -> Q :=
  fun x _ =>
    let d := x - (1 # 3) in
    if Qeq_bool d 0 then 1 else d + (1 / 10 ^ 30) / d.

(** ** Notions of the further statements *)

(** The Bessel functions of the second kind, unbounded at the origin, and
    their derivatives. *)
Definition second_kind (f : bessel) : bool :=
  match f with
  | Yn | Kn | Yvp | Kvp => true
  | _ => false
  end.

(** The Bessel functions called, in order. *)
Fixpoint called (log : list event) : list bessel :=
  match log with
  | [] => []
  | Call f _ _ :: log' => f :: called log'
  | _ :: log' => called log'
  end.

(** How many linear systems were solved. *)
Fixpoint count_solve (log : list event) : nat :=
  match log with
  | [] => 0
  | Solve _ _ :: log' => S (count_solve log')
  | _ :: log' => count_solve log'
  end.

(** The loop of [_find_root_within_range] gets from one bracket to
    another in [k] turns, none of which returns. *)
Inductive bracket_reaches `{Optimize} {Args : Type}
    (function : Q -> Args -> Q) (function_args : Args)
    : nat -> bracket -> bracket -> Prop :=
| bracket_here (s : bracket) :
    bracket_reaches function function_args 0 s s
| bracket_next (k : nat) (s s' s'' : bracket) :
    bracket_reaches function function_args k s s' ->
    bracket_step function function_args s' = Next s'' ->
    bracket_reaches function function_args (S k) s s''.

(** * Properties *)

(** ** Tests on floats *)

Lemma Qlt_bool_iff (x y : Q) : Qlt_bool x y = true <-> x < y.
Proof.
  unfold Qlt_bool. rewrite negb_true_iff, <- not_true_iff_false, Qle_bool_iff.
  split; [apply Qnot_le_lt | apply Qlt_not_le].
Qed.

Lemma Qlt_bool_false_iff (x y : Q) : Qlt_bool x y = false <-> y <= x.
Proof. unfold Qlt_bool. rewrite negb_false_iff. apply Qle_bool_iff. Qed.

Lemma truthy_false_iff (x : Q) : truthy x = false <-> x == 0.
Proof. unfold truthy. rewrite negb_false_iff. apply Qeq_bool_iff. Qed.

Lemma truthy_true_iff (x : Q) : truthy x = true <-> ~ x == 0.
Proof.
  unfold truthy. rewrite negb_true_iff, <- not_true_iff_false, Qeq_bool_iff.
  reflexivity.
Qed.

Lemma attenuates_iff (fa fz fb : Q) :
  attenuates fa fz fb = true <-> Qabs fz < Qabs fa /\ Qabs fz < Qabs fb.
Proof.
  unfold attenuates. rewrite andb_true_iff, !Qlt_bool_iff. reflexivity.
Qed.

(** ** The index of a layer *)

Section StepIndex_facts.
Context `{Numerics} `{constants.t}.

Lemma get_index_inside (self : StepIndex) (radius : Q)
    (wavelength : Wavelength.t) :
  radius_in self <= Qabs radius <= radius_out self ->
  get_index self radius wavelength
  = Some (get_maximum_index self wavelength).
Proof.
  intros [Hin Hout]. unfold get_index.
  apply Qle_bool_iff in Hin. apply Qle_bool_iff in Hout.
  rewrite Hin, Hout. reflexivity.
Qed.


(** C9: a step-index layer is radially homogeneous: its minimum and its
    maximum index are the same number, and so is its index at every
    radius between its inner radius (which is not negative) and its
    outer radius. *)
Theorem StepIndex_homogeneous (self : StepIndex) (wavelength : Wavelength.t)
    (radius : Q) :
  0 <= radius_in self ->
  radius_in self <= radius <= radius_out self ->
  get_minimum_index self wavelength = get_maximum_index self wavelength
  /\ get_index self radius wavelength
     = Some (get_maximum_index self wavelength)
  /\ get_index self radius wavelength
     = Some (get_minimum_index self wavelength)
  /\ get_maximum_index self wavelength
     = get_refractive_index (material_type self) wavelength
         (material_parameter self).
Proof.
  intros Hpos [Hin Hout].
  assert (Habs : Qabs radius == radius).
  { apply Qabs_pos. now apply Qle_trans with (radius_in self). }
  assert (Hidx : get_index self radius wavelength
                 = Some (get_maximum_index self wavelength)).
  { apply get_index_inside. rewrite Habs. now split. }
  repeat split; assumption || reflexivity.
Qed.

(** C2: where the layer has an index [n_layer] at the radius,
    [get_U_W_parameter] returns [k0 * radius * sqrt(|n_layer^2 - neff^2|)],
    and calls no Bessel function on the way. *)
Theorem get_U_W_parameter_value (self : StepIndex) (radius neff : Q)
    (wavelength : Wavelength.t) (n_layer : Q) :
  get_index self radius wavelength = Some n_layer ->
  get_U_W_parameter self radius neff wavelength
  = Done (Wavelength.k0 wavelength * radius
          * sqrt (Qabs (n_layer ^ 2 - neff ^ 2))) [].
Proof.
  intros Hidx. unfold get_U_W_parameter. rewrite Hidx. reflexivity.
Qed.

End StepIndex_facts.

Lemma StepIndex_homogeneous_witness :
  get_minimum_index core unit_wavenumber = get_maximum_index core unit_wavenumber
  /\ get_index core 1 unit_wavenumber
     = Some (get_maximum_index core unit_wavenumber)
  /\ get_index core 1 unit_wavenumber
     = Some (get_minimum_index core unit_wavenumber)
  /\ get_maximum_index core unit_wavenumber
     = get_refractive_index (material_type core) unit_wavenumber
         (material_parameter core).
Proof.
  apply (StepIndex_homogeneous core unit_wavenumber 1).
  - vm_compute. discriminate.
  - split; vm_compute; discriminate.
Defined.

Lemma get_U_W_parameter_value_witness :
  @get_U_W_parameter table_numerics core 2 (3 # 4) unit_wavenumber
  = Done (Wavelength.k0 unit_wavenumber * 2
          * @sqrt table_numerics (Qabs ((5 # 4) ^ 2 - (3 # 4) ^ 2))) [].
Proof.
  apply (@get_U_W_parameter_value table_numerics core 2 (3 # 4)
           unit_wavenumber (5 # 4)).
  reflexivity.
Defined.

(** ** The regime of a layer and its basis functions *)

Lemma selects_regime (nu : Z) (neff n : Q) (log : list event) :
  (if Qlt_bool neff n
   then selects ordinary nu log = true /\ selects modified nu log = false
   else selects ordinary nu log = false /\ selects modified nu log = true) ->
  (selects ordinary nu log = true <-> neff < n)
  /\ (selects modified nu log = true <-> n <= neff).
Proof.
  destruct (Qlt_bool neff n) eqn:E; intros [Ho Hm]; rewrite Ho, Hm.
  - apply Qlt_bool_iff in E. repeat split; try discriminate; trivial.
    intros Hle. exfalso. now apply (Qlt_not_le neff n).
  - apply Qlt_bool_false_iff in E. repeat split; try discriminate; trivial.
    intros Hlt. exfalso. now apply (Qlt_not_le neff n).
Qed.

Section basis_facts.
Context `{Numerics} `{constants.t}.

Lemma Psi_regime (self : StepIndex) (radius neff : Q)
    (wavelength : Wavelength.t) (nu : Z) (C : list Q)
    (r : Q * Q) (log : list event) :
  Psi self radius neff wavelength nu C = Done r log ->
  if Qlt_bool neff (get_maximum_index self wavelength)
  then selects ordinary nu log = true /\ selects modified nu log = false
  else selects ordinary nu log = false /\ selects modified nu log = true.
Proof.
  unfold Psi, get_U_W_parameter.
  destruct (get_index self radius wavelength) as [n|]; [|discriminate].
  cbn [bind ret].
  destruct (Qlt_bool neff (get_maximum_index self wavelength));
    destruct C as [|C0 [|C1 C']]; try discriminate;
    cbn [getitem nth_error bind ret];
    destruct (truthy C1); cbn;
    intros [= _ <-]; cbn; rewrite Z.eqb_refl; auto.
Qed.

Lemma truediv_zero (x y : Q) :
  y == 0 -> truediv x y = Raised ZeroDivisionError.
Proof.
  intros Hy. apply Qeq_bool_iff in Hy. unfold truediv. now rewrite Hy.
Qed.

Lemma truediv_nonzero (x y : Q) :
  ~ y == 0 -> truediv x y = Done (x / y) [].
Proof.
  intros Hy. unfold truediv.
  destruct (Qeq_bool y 0) eqn:E; [|reflexivity].
  apply Qeq_bool_iff in E. contradiction.
Qed.

Lemma truediv_Done (x y q : Q) (log : list event) :
  truediv x y = Done q log -> ~ y == 0 /\ q = x / y /\ log = [].
Proof.
  unfold truediv. destruct (Qeq_bool y 0) eqn:E; [discriminate|].
  intros [= <- <-]. repeat split.
  intros Hy. apply Qeq_bool_iff in Hy. congruence.
Qed.

Lemma vConstants_F_regime (nu : Z) (neff maximum_index u urp : Q)
    (wavelength : Wavelength.t) (radius_out : Q) (r : ratios)
    (log : list event) :
  vConstants_F nu neff maximum_index u urp wavelength radius_out
  = Done r log ->
  if Qlt_bool neff maximum_index
  then selects ordinary nu log = true /\ selects modified nu log = false
  else selects ordinary nu log = false /\ selects modified nu log = true.
Proof.
  unfold vConstants_F, truediv, truthy.
  destruct (Qlt_bool neff maximum_index); destruct (Qeq_bool u 0); cbn;
    try discriminate; intros [= _ <-]; cbn; rewrite Z.eqb_refl; auto.
Qed.

Lemma EH_fields_F_regime (nu : Z) (neff maximum_index u : Q)
    (wavelength : Wavelength.t) (radius_out : Q) (r : Q * Q * Q)
    (log : list event) :
  EH_fields_F nu neff maximum_index u wavelength radius_out = Done r log ->
  if Qlt_bool neff maximum_index
  then selects ordinary nu log = true /\ selects modified nu log = false
  else selects ordinary nu log = false /\ selects modified nu log = true.
Proof.
  unfold EH_fields_F, truediv.
  destruct (Qlt_bool neff maximum_index); destruct (Qeq_bool u 0); cbn;
    try discriminate; intros [= _ <-]; cbn; rewrite Z.eqb_refl; auto.
Qed.

(** At [u = 0] the regime branch of [EH_fields] raises at [c1], its first
    statement, and those of the boundary matchers at [c1], their last. *)
Lemma EH_fields_F_zero (nu : Z) (neff maximum_index u : Q)
    (wavelength : Wavelength.t) (radius_out : Q) :
  u == 0 ->
  EH_fields_F nu neff maximum_index u wavelength radius_out
  = Raised ZeroDivisionError.
Proof.
  intros Hu. apply Qeq_bool_iff in Hu. unfold EH_fields_F, truediv.
  rewrite Hu. now destruct (Qlt_bool neff maximum_index).
Qed.

Lemma vConstants_F_zero (nu : Z) (neff maximum_index u urp : Q)
    (wavelength : Wavelength.t) (radius_out : Q) :
  u == 0 ->
  vConstants_F nu neff maximum_index u urp wavelength radius_out
  = Raised ZeroDivisionError.
Proof.
  intros Hu. apply Qeq_bool_iff in Hu. unfold vConstants_F, truediv, truthy.
  rewrite Hu. now destruct (Qlt_bool neff maximum_index).
Qed.

Lemma tetmConstants_F_zero (neff maximum_index u urp : Q)
    (wavelength : Wavelength.t) (radius_out : Q) :
  u == 0 ->
  tetmConstants_F neff maximum_index u urp wavelength radius_out
  = Raised ZeroDivisionError.
Proof.
  intros Hu. apply Qeq_bool_iff in Hu. unfold tetmConstants_F, truediv.
  rewrite Hu. now destruct (Qlt_bool neff maximum_index).
Qed.

(** [Psi] returns for every radius in the layer and every [C] of two
    entries or more. *)
Lemma Psi_returns (self : StepIndex) (radius neff : Q)
    (wavelength : Wavelength.t) (nu : Z) (C0 C1 : Q) (rest : list Q) :
  radius_in self <= Qabs radius <= radius_out self ->
  exists r log,
    Psi self radius neff wavelength nu (C0 :: C1 :: rest) = Done r log.
Proof.
  intros Hin. unfold Psi, get_U_W_parameter.
  rewrite (get_index_inside self radius wavelength Hin). cbn [bind ret].
  destruct (Qlt_bool neff (get_maximum_index self wavelength));
    cbn [getitem nth_error bind ret]; destruct (truthy C1); cbn;
    eexists; eexists; reflexivity.
Qed.

(** Wherever they return, [Psi], the ratios of [vConstants] and those of
    [EH_fields] have called the ordinary Bessel functions (J, Y and their
    derivatives), at the order [nu], exactly when [neff] is below the
    layer's maximum index, and the modified ones (I, K and their
    derivatives), at the order [nu], exactly when [neff] is at or above
    it. *)
Lemma basis_pair_where_returned (self : StepIndex) (neff : Q)
    (wavelength : Wavelength.t) (nu : Z) :
  let n_layer := get_maximum_index self wavelength in
  (forall (radius : Q) (C : list Q) (r : Q * Q) (log : list event),
     Psi self radius neff wavelength nu C = Done r log ->
     (selects ordinary nu log = true <-> neff < n_layer)
     /\ (selects modified nu log = true <-> n_layer <= neff))
  /\ (forall (u urp radius_out : Q) (r : ratios) (log : list event),
        vConstants_F nu neff n_layer u urp wavelength radius_out
        = Done r log ->
        (selects ordinary nu log = true <-> neff < n_layer)
        /\ (selects modified nu log = true <-> n_layer <= neff))
  /\ (forall (u radius_out : Q) (r : Q * Q * Q) (log : list event),
        EH_fields_F nu neff n_layer u wavelength radius_out = Done r log ->
        (selects ordinary nu log = true <-> neff < n_layer)
        /\ (selects modified nu log = true <-> n_layer <= neff)).
Proof.
  intros n_layer. split; [|split].
  - intros radius C r log HPsi. apply selects_regime.
    now apply Psi_regime with (1 := HPsi).
  - intros u urp radius_out r log HF. apply selects_regime.
    now apply vConstants_F_regime with (1 := HF).
  - intros u radius_out r log HF. apply selects_regime.
    now apply EH_fields_F_regime with (1 := HF).
Qed.
End basis_facts.

Example basis_pair_below_index :
  exists r : Q * Q,
    @Psi table_numerics core 2 (3 # 4) unit_wavenumber 0 [1; 1]
    = Done r [Call Jn 0 2; Call Yn 0 2; Call Jvp 0 2; Call Yvp 0 2]
    /\ (selects ordinary 0
          [Call Jn 0 2; Call Yn 0 2; Call Jvp 0 2; Call Yvp 0 2] = true
        <-> 3 # 4 < get_maximum_index core unit_wavenumber).
Proof.
  assert (E : { r : Q * Q |
                @Psi table_numerics core 2 (3 # 4) unit_wavenumber 0 [1; 1]
                = Done r [Call Jn 0 2; Call Yn 0 2; Call Jvp 0 2;
                          Call Yvp 0 2] }).
  { eexists. vm_compute. reflexivity. }
  destruct E as [r E]. exists r. split; [exact E|].
  exact (proj1 (proj1 (@basis_pair_where_returned table_numerics core (3 # 4)
                         unit_wavenumber 0) 2 [1; 1] r _ E)).
Qed.


(** ** The derivative that [Psi] returns *)

Section Psi_facts.
Context `{Numerics}.

(** With [C[1]] not zero, the second component of [Psi] scales the first
    basis term by [u] and leaves the second unscaled. *)
Lemma Psi_psip (self : StepIndex) (radius neff : Q)
    (wavelength : Wavelength.t) (nu : Z) (C0 C1 : Q) (rest : list Q)
    (u : Q) :
  get_U_W_parameter self radius neff wavelength = Done u [] ->
  truthy C1 = true ->
  exists psi log,
    Psi self radius neff wavelength nu (C0 :: C1 :: rest)
    = Done (psi,
            if Qlt_bool neff (get_maximum_index self wavelength)
            then u * C0 * special Jvp nu u + C1 * special Yvp nu u
            else u * C0 * special Ivp nu u + C1 * special Kvp nu u) log.
Proof.
  intros Hu HC1. unfold Psi. rewrite Hu. cbn [bind].
  destruct (Qlt_bool neff (get_maximum_index self wavelength));
    cbn [getitem nth_error bind ret]; rewrite HC1; cbn;
    eexists; eexists; reflexivity.
Qed.

(** That value is the derivative with both terms scaled by [u] only
    where the difference [(u - 1) * C[1] * Y'] vanishes. *)
Lemma Psi_psip_gap (u C0 C1 dJ dY : Q) :
  u * C0 * dJ + C1 * dY == u * (C0 * dJ + C1 * dY)
  <-> (u - 1) * (C1 * dY) == 0.
Proof. split; intros E; lra. Qed.
End Psi_facts.

(** C5 (what the code does): for the core of index [5/4], the radius [2],
    the wavenumber [1], [neff = 3/4], [nu = 0] and [C = [1, 1]], the
    argument [u] is [2] and [Psi] returns as its second component
    [2 * J'(0, 2) + Y'(0, 2)], which is not
    [2 * (J'(0, 2) + Y'(0, 2))]. *)
Theorem Psi_psip_not_scaled_alike :
  exists psi psip log,
    @Psi table_numerics core 2 (3 # 4) unit_wavenumber 0 [1; 1]
    = Done (psi, psip) log
    /\ @get_U_W_parameter table_numerics core 2 (3 # 4) unit_wavenumber
       = Done 2 []
    /\ psip == 2 * 1 * table_special Jvp 0 2 + 1 * table_special Yvp 0 2
    /\ psip == decimal (-104641)
    /\ 2 * (1 * table_special Jvp 0 2 + 1 * table_special Yvp 0 2)
       == decimal (-93938)
    /\ ~ psip == 2 * (1 * table_special Jvp 0 2 + 1 * table_special Yvp 0 2).
Proof.
  eexists. eexists. eexists. split; [vm_compute; reflexivity|].
  repeat split; try (vm_compute; reflexivity).
  vm_compute. discriminate.
Qed.

(** ** The boundary matchers at a vanishing argument *)

Section ratio_facts.
Context `{Numerics} `{constants.t}.

(** C4 (what the code does): whenever the argument [u] at the outer
    radius is zero, neither boundary matcher returns ratios of [1]:
    both raise [ZeroDivisionError], in the oscillatory and in the
    evanescent regime, at the scale [c1 = k0 * radius_out / u] (or its
    opposite) that ends their regime branch, after the ratios were
    computed. *)
Theorem zero_argument_raises (self : StepIndex) (r_in r_out neff : Q)
    (wavelength : Wavelength.t) (nu : Z) (EH : ndarray) (c : Q)
    (idx : nat * nat) (u urp : Q) :
  get_U_W_parameter self r_out neff wavelength = Done u [] ->
  get_U_W_parameter self r_in neff wavelength = Done urp [] ->
  u == 0 ->
  let maximum_index := get_maximum_index self wavelength in
  vConstants_F nu neff maximum_index u urp wavelength r_out
  = Raised ZeroDivisionError
  /\ tetmConstants_F neff maximum_index u urp wavelength r_out
     = Raised ZeroDivisionError
  /\ vConstants self r_in r_out neff wavelength nu EH
     = Raised ZeroDivisionError
  /\ tetmConstants self r_in r_out neff wavelength EH c idx
     = Raised ZeroDivisionError.
Proof.
  intros Hu Hurp Hzero maximum_index.
  pose proof (vConstants_F_zero nu neff maximum_index u urp wavelength r_out
                Hzero) as Hv.
  pose proof (tetmConstants_F_zero neff maximum_index u urp wavelength r_out
                Hzero) as Ht.
  split; [exact Hv|]. split; [exact Ht|]. split.
  - unfold vConstants. rewrite Hu, Hurp. cbn [bind].
    fold maximum_index. now rewrite Hv.
  - unfold tetmConstants. rewrite Hu, Hurp. cbn [bind].
    fold maximum_index. now rewrite Ht.
Qed.
End ratio_facts.

Lemma zero_argument_raises_witness :
  @vConstants table_numerics table_constants cladding (1 # 3) (2 # 3) (5 # 4)
    unit_wavenumber 1 (Arr1 [1; 0; 0; 0])
  = Raised ZeroDivisionError
  /\ @tetmConstants table_numerics cladding (1 # 3) (2 # 3) (5 # 4)
       unit_wavenumber (Arr1 [1; 0; 0; 0]) 1 (0%nat, 3%nat)
     = Raised ZeroDivisionError.
Proof.
  destruct (@get_U_W_parameter table_numerics cladding (2 # 3) (5 # 4)
              unit_wavenumber) as [u lu|e] eqn:Eu;
    [|vm_compute in Eu; discriminate].
  destruct (@get_U_W_parameter table_numerics cladding (1 # 3) (5 # 4)
              unit_wavenumber) as [urp lurp|e] eqn:Eurp;
    [|vm_compute in Eurp; discriminate].
  assert (Hlu : lu = []) by (vm_compute in Eu; congruence).
  assert (Hlurp : lurp = []) by (vm_compute in Eurp; congruence).
  subst lu lurp.
  assert (Hzero : u == 0).
  { vm_compute in Eu. injection Eu as <-. reflexivity. }
  exact (proj2 (proj2 (@zero_argument_raises table_numerics table_constants
                         cladding (1 # 3) (2 # 3) (5 # 4) unit_wavenumber 1
                         (Arr1 [1; 0; 0; 0]) 1 (0%nat, 3%nat) u urp
                         Eu Eurp Hzero))).
Defined.

(** ** The coefficients of the innermost layer *)

Lemma bind_Done {A B : Type} (m : M A) (k : A -> M B) (b : B)
    (log : list event) :
  bind m k = Done b log ->
  exists a l1 l2, m = Done a l1 /\ k a = Done b l2 /\ log = l1 ++ l2.
Proof.
  unfold bind. destruct m as [a l1|e]; [|discriminate].
  destruct (k a) as [b' l2|e] eqn:E; [|discriminate].
  intros [= <- <-]. now exists a, l1, l2.
Qed.

Lemma no_solve_app (l1 l2 : list event) :
  no_solve (l1 ++ l2) = no_solve l1 && no_solve l2.
Proof. apply forallb_app. Qed.

Lemma getrow_log (a : ndarray) (i : nat) (c : cell) (log : list event) :
  getrow a i = Done c log -> log = [].
Proof.
  unfold getrow. destruct a as [v|m].
  - destruct (nth_error v i); [intros [= _ <-]; reflexivity | discriminate].
  - destruct (nth_error m i); [intros [= _ <-]; reflexivity | discriminate].
Qed.

Lemma cell_op_log (f : Q -> Q -> Q) (c d e : cell) (log : list event) :
  cell_op f c d = Done e log -> log = [].
Proof.
  unfold cell_op. destruct c as [x|r], d as [y|s];
    try (intros [= _ <-]; reflexivity).
  destruct (Nat.eqb (length r) (length s));
    [intros [= _ <-]; reflexivity|].
  destruct r as [|x [|x' r']], s as [|y [|y' s']];
    try discriminate; intros [= _ <-]; reflexivity.
Qed.

Lemma setrow_log (a : ndarray) (i : nat) (c : cell) (a' : ndarray)
    (log : list event) :
  setrow a i c = Done a' log -> log = [].
Proof.
  unfold setrow. destruct a as [v|m], c as [x|r].
  - destruct (Nat.ltb i (length v)); [intros [= _ <-]; reflexivity | discriminate].
  - destruct (Nat.ltb i (length v)); discriminate.
  - destruct (nth_error m i); [intros [= _ <-]; reflexivity | discriminate].
  - destruct (nth_error m i) as [old|]; [|discriminate].
    destruct (Nat.eqb (length r) (length old));
      [intros [= _ <-]; reflexivity|].
    destruct r as [|x [|x' r']]; try discriminate.
    intros [= _ <-]; reflexivity.
Qed.

Section innermost_facts.
Context `{Numerics} `{constants.t}.

Lemma EH_fields_F_no_solve (nu : Z) (neff maximum_index u : Q)
    (wavelength : Wavelength.t) (radius_out : Q) (r : Q * Q * Q)
    (log : list event) :
  EH_fields_F nu neff maximum_index u wavelength radius_out = Done r log ->
  no_solve log = true.
Proof.
  unfold EH_fields_F, truediv.
  destruct (Qlt_bool neff maximum_index); destruct (Qeq_bool u 0); cbn;
    try discriminate; intros [= _ <-]; reflexivity.
Qed.

Lemma get_U_W_parameter_log (self : StepIndex) (radius neff : Q)
    (wavelength : Wavelength.t) (u : Q) (log : list event) :
  get_U_W_parameter self radius neff wavelength = Done u log -> log = [].
Proof.
  unfold get_U_W_parameter.
  destruct (get_index self radius wavelength); [|discriminate].
  intros [= _ <-]. reflexivity.
Qed.

Lemma EH_fields_C_innermost (self : StepIndex) (radius_in radius_out : Q)
    (nu : Z) (neff : Q) (wavelength : Wavelength.t) (EH : ndarray)
    (TM : bool) :
  radius_in == 0 ->
  EH_fields_C self radius_in radius_out nu neff wavelength EH TM
  = Done (unit_excitation nu TM) [].
Proof.
  intros Hin. apply Qeq_bool_iff in Hin.
  unfold EH_fields_C, unit_excitation. rewrite Hin.
  destruct (Z.eqb nu 0); [destruct TM|]; reflexivity.
Qed.
End innermost_facts.

Ltac invert_bind H :=
  let a := fresh "a" in
  let l1 := fresh "l" in
  let l2 := fresh "l" in
  let E := fresh "E" in
  let L := fresh "L" in
  apply bind_Done in H; destruct H as (a & l1 & l2 & E & H & L).

Ltac invert_bind_as H a E :=
  let l1 := fresh "l" in
  let l2 := fresh "l" in
  let L := fresh "L" in
  apply bind_Done in H; destruct H as (a & l1 & l2 & E & H & L).

Section innermost_layer.
Context `{Numerics} `{constants.t}.

Lemma EH_fields_innermost_state (self : StepIndex)
    (radius_in radius_out : Q) (nu : Z) (neff : Q)
    (wavelength : Wavelength.t) (EH : ndarray) (TM : bool)
    (self' : StepIndex) (EH' : ndarray) (log : list event) :
  radius_in == 0 ->
  EH_fields self radius_in radius_out nu neff wavelength EH TM
  = Done (self', EH') log ->
  self' = set_C self (unit_excitation nu TM) /\ no_solve log = true.
Proof.
  intros Hin Hrun. unfold EH_fields in Hrun.
  invert_bind Hrun. apply get_U_W_parameter_log in E. subst.
  invert_bind Hrun.
  rewrite (EH_fields_C_innermost self radius_in radius_out nu neff
             wavelength EH TM Hin) in E.
  injection E as <- <-. subst.
  invert_bind Hrun. destruct a0 as [[c1 F3] F4].
  apply EH_fields_F_no_solve in E. subst.
  repeat match goal with
         | Hb : bind _ _ = Done _ _ |- _ =>
             invert_bind Hb;
             match goal with
             | Hg : truediv _ _ = Done _ _ |- _ =>
                 apply truediv_Done in Hg; destruct Hg as (_ & _ & Hg)
             | Hg : getrow _ _ = Done _ _ |- _ =>
                 apply getrow_log in Hg
             | Hg : cell_add _ _ = Done _ _ |- _ =>
                 apply cell_op_log in Hg
             | Hg : cell_sub _ _ = Done _ _ |- _ =>
                 apply cell_op_log in Hg
             | Hg : setrow _ _ _ = Done _ _ |- _ =>
                 apply setrow_log in Hg
             end; subst
         end.
  injection Hrun as <- <- <-.
  split; [reflexivity|].
  cbn [app]. rewrite no_solve_app, E. reflexivity.
Qed.

Lemma EH_fields_innermost_returns (self : StepIndex)
    (radius_in radius_out : Q) (nu : Z) (neff : Q)
    (wavelength : Wavelength.t) (EH : ndarray) (TM : bool) (u : Q) :
  radius_in == 0 ->
  get_U_W_parameter self radius_out neff wavelength = Done u [] ->
  ~ u == 0 ->
  fits nu EH = true ->
  exists EH' log,
    EH_fields self radius_in radius_out nu neff wavelength EH TM
    = Done (set_C self (unit_excitation nu TM), EH') log.
Proof.
  intros Hin Hu Hzero Hfits. unfold EH_fields.
  rewrite (EH_fields_C_innermost self radius_in radius_out nu neff
             wavelength EH TM Hin).
  rewrite Hu. cbn [bind].
  assert (Hq : Qeq_bool u 0 = false).
  { apply not_true_iff_false. now rewrite Qeq_bool_iff. }
  unfold fits in Hfits. unfold unit_excitation, EH_fields_F, truediv.
  rewrite !Hq.
  destruct (Z.eqb nu 0).
  - destruct EH as [[|e0 [|e1 [|e2 [|e3 [|e4 v]]]]]|m]; try discriminate.
    destruct (Qlt_bool neff (get_maximum_index self wavelength));
      destruct TM; cbn; eexists; eexists; reflexivity.
  - destruct EH as [v|m]; [discriminate|].
    destruct m as [|[|a0 [|a1 [|a2 r0]]]
                     [|[|b0 [|b1 [|b2 r1]]]
                       [|[|c0 [|c1 [|c2 r2]]]
                         [|[|d0 [|d1 [|d2 r3]]] [|r4 m]]]]];
      try discriminate.
    destruct (Qlt_bool neff (get_maximum_index self wavelength));
      cbn; eexists; eexists; reflexivity.
Qed.

(** C7: for the innermost layer ([radius_in = 0]), [EH_fields] sets the
    coefficients [C] directly: [[1, 0, 0, 0]] for [nu = 0] and TM,
    [[0, 0, 1, 0]] for [nu = 0] and TE, and for [nu != 0] the 4 x 2
    array that is zero except for [C[0, 0] = 1] and [C[2, 1] = 1].  No
    linear system is solved, and the call returns whenever the argument
    [u] at [radius_out] is defined and not zero and [EH] has the shape of
    the fields. *)
Theorem innermost_coefficients (self : StepIndex)
    (radius_in radius_out : Q) (nu : Z) (neff : Q)
    (wavelength : Wavelength.t) (EH : ndarray) (TM : bool) :
  radius_in == 0 ->
  let C0 :=
    if Z.eqb nu 0 then
      if TM then Arr1 [1; 0; 0; 0] else Arr1 [0; 0; 1; 0]
    else Arr2 [[1; 0]; [0; 0]; [0; 1]; [0; 0]] in
  EH_fields_C self radius_in radius_out nu neff wavelength EH TM
  = Done C0 []
  /\ (forall self' EH' log,
        EH_fields self radius_in radius_out nu neff wavelength EH TM
        = Done (self', EH') log ->
        C self' = Some C0 /\ no_solve log = true)
  /\ (forall u : Q,
        get_U_W_parameter self radius_out neff wavelength = Done u [] ->
        ~ u == 0 ->
        fits nu EH = true ->
        exists EH' log,
          EH_fields self radius_in radius_out nu neff wavelength EH TM
          = Done (set_C self C0, EH') log).
Proof.
  intros Hin C0. split; [|split].
  - now apply EH_fields_C_innermost.
  - intros self' EH' log Hrun.
    destruct (EH_fields_innermost_state self radius_in radius_out nu neff
                wavelength EH TM self' EH' log Hin Hrun) as [-> Hlog].
    split; [reflexivity | exact Hlog].
  - intros u Hu Hzero Hfits.
    now apply EH_fields_innermost_returns with (u := u).
Qed.
End innermost_layer.

Lemma innermost_coefficients_witness :
  0 == 0
  /\ @EH_fields_C table_numerics table_constants core 0 2 1 (3 # 4)
       unit_wavenumber (Arr2 [[0; 0]; [0; 0]; [0; 0]; [0; 0]]) true
     = Done (Arr2 [[1; 0]; [0; 0]; [0; 1]; [0; 0]]) []
  /\ exists EH' log,
       @EH_fields table_numerics table_constants core 0 2 1 (3 # 4)
         unit_wavenumber (Arr2 [[0; 0]; [0; 0]; [0; 0]; [0; 0]]) true
       = Done (set_C core (Arr2 [[1; 0]; [0; 0]; [0; 1]; [0; 0]]), EH') log.
Proof.
  assert (Hin : 0 == 0) by reflexivity.
  pose proof (@innermost_coefficients table_numerics table_constants core
                0 2 1 (3 # 4) unit_wavenumber
                (Arr2 [[0; 0]; [0; 0]; [0; 0]; [0; 0]]) true Hin) as W.
  cbv zeta in W. destruct W as (WC & _ & Wrun).
  split; [exact Hin|]. split; [exact WC|].
  apply (Wrun 2); [reflexivity | vm_compute; discriminate | reflexivity].
Defined.

(** ** The root search *)

Section root_facts.
Context `{Optimize} {Args : Type}.
Variable function : Q -> Args -> Q.
Variable function_args : Args.

(** C8: [find_root_within_range] returns the root that [root] found,
    whatever the bounds: a root outside of [(x_low, x_high)] adds one
    record of level WARNING to the log and nothing else; the value is
    never [nan]. *)
Theorem find_root_within_range_returns_root (x_low x_high : Q)
    (max_iteration : Z) :
  let x := root function x_low function_args in
  let result :=
    find_root_within_range function function_args x_low x_high
      max_iteration in
  fst result = Real x
  /\ fst result <> nan
  /\ snd result
     = (if Qlt_bool x_low x && Qlt_bool x x_high then []
        else [{| lvl := WARNING;
                 msg := root_outside_of_range x x_low x_high |}])
  /\ Forall (fun record => lvl record = WARNING) (snd result).
Proof.
  intros x result. unfold result, find_root_within_range. fold x.
  destruct (Qlt_bool x_low x && Qlt_bool x x_high); cbn.
  - repeat split; try discriminate. constructor.
  - repeat split; try discriminate. repeat constructor.
Qed.

(** C10 (amended): in exact arithmetic, for [x_low <= x_high] and
    [y_low], [y_high] the values of the function at [x_low] and [x_high],
    [update_root_range] returns an interval inside [[x_low, x_high]], of
    half its width, with one endpoint replaced by the midpoint (the high
    one when the function is positive at the midpoint, the low one
    otherwise), and the values of the function at the returned
    endpoints.  (On the machine's floats the midpoint is rounded, and the
    width is half of the old one up to rounding only.) *)
Theorem update_root_range_halves (x_low x_high y_low y_high : Q) :
  x_low <= x_high ->
  y_low = function x_low function_args ->
  y_high = function x_high function_args ->
  let x_mid := (x_low + x_high) / 2 in
  let '(x_low', x_high', y_low', y_high') :=
    update_root_range function function_args x_low x_high y_low y_high in
  x_low <= x_low' /\ x_low' <= x_high' /\ x_high' <= x_high
  /\ x_high' - x_low' == (x_high - x_low) / 2
  /\ ((0 < function x_mid function_args
       /\ x_low' = x_low /\ x_high' = x_mid)
      \/ (function x_mid function_args <= 0
          /\ x_low' = x_mid /\ x_high' = x_high))
  /\ y_low' = function x_low' function_args
  /\ y_high' = function x_high' function_args.
Proof.
  intros Hord Hlow Hhigh x_mid. unfold update_root_range. fold x_mid.
  assert (Hmid : x_mid == (x_low + x_high) * (1 # 2)) by reflexivity.
  assert (Hhalf : (x_high - x_low) / 2 == (x_high - x_low) * (1 # 2))
    by reflexivity.
  clearbody x_mid.
  destruct (Qlt_bool 0 (function x_mid function_args)) eqn:E.
  - apply Qlt_bool_iff in E.
    repeat split; try assumption; try reflexivity;
      try rewrite Hhalf; try lra.
    left. repeat split. exact E.
  - apply Qlt_bool_false_iff in E.
    repeat split; try assumption; try reflexivity;
      try rewrite Hhalf; try lra.
    right. repeat split. exact E.
Qed.
End root_facts.

(** A root outside of the bounds is returned all the same: the zero [5]
    of [x - 5], looked for between [0] and [1]. *)
Example find_root_within_range_out_of_range :
  @find_root_within_range bisection_optimize unit (fun x _ => x - 5) tt 0 1 20
  = (Real 5, [{| lvl := WARNING; msg := root_outside_of_range 5 0 1 |}]).
Proof. vm_compute. reflexivity. Qed.

Lemma update_root_range_halves_witness :
  0 <= 2
  /\ (let '(x_low', x_high', y_low', y_high') :=
        @update_root_range unit (fun x _ => x - (1 # 2)) tt 0 2
          (- (1 # 2)) (3 # 2) in
      x_high' - x_low' == (2 - 0) / 2 /\ x_high' = (0 + 2) / 2).
Proof.
  assert (Hord : 0 <= 2) by (vm_compute; discriminate).
  split; [exact Hord|].
  pose proof (@update_root_range_halves unit (fun x _ => x - (1 # 2)) tt 0 2
                (- (1 # 2)) (3 # 2) Hord eq_refl eq_refl) as W.
  cbv zeta in W.
  destruct (@update_root_range unit (fun x _ => x - (1 # 2)) tt 0 2
              (- (1 # 2)) (3 # 2)) as [[[x_low' x_high'] y_low'] y_high']
    eqn:E.
  destruct W as (_ & _ & _ & Hwidth & Hside & _).
  split; [exact Hwidth|].
  vm_compute in E. injection E as <- <- <- <-. reflexivity.
Defined.

(** C10 (as stated) fails for a call with [x_low > x_high], where the
    returned pair is not ordered; for a call whose [y_low] is not the
    value of the function at [x_low], where the returned [y_low] is not
    either; and, on the machine's floats, for the call with [x_low = 0.1]
    and [x_high = 0.2], where the midpoint is rounded to
    [0.15000000000000002] and neither the lower nor the upper half has
    half the width of the interval. *)
Lemma update_root_range_counterexample :
  (let '(x_low', x_high', y_low', y_high') :=
     @update_root_range unit (fun _ _ => 1) tt 2 0 1 1 in
   x_low' = 2 /\ x_high' == 1 /\ ~ x_low' <= x_high' /\ ~ x_high' <= 0)
  /\ (let '(x_low', x_high', y_low', y_high') :=
        @update_root_range unit (fun _ _ => 1) tt 0 2 7 1 in
      x_low' = 0 /\ y_low' = 7 /\ y_low' <> (fun _ _ => 1) x_low' tt)
  /\ (let '(x_low', x_high', y_low', y_high') :=
        @binary64.update_root_range unit (fun x _ => x) tt
          binary64.tenth binary64.fifth binary64.tenth binary64.fifth in
      x_low' = binary64.tenth
      /\ x_high' = binary64.above_three_twentieths
      /\ PrimFloat.eqb (binary64.width x_low' x_high')
           (binary64.half (binary64.width binary64.tenth binary64.fifth))
         = false)
  /\ (let '(x_low', x_high', y_low', y_high') :=
        @binary64.update_root_range unit (fun x _ => PrimFloat.opp x) tt
          binary64.tenth binary64.fifth
          (PrimFloat.opp binary64.tenth) (PrimFloat.opp binary64.fifth) in
      x_low' = binary64.above_three_twentieths
      /\ x_high' = binary64.fifth
      /\ PrimFloat.eqb (binary64.width x_low' x_high')
           (binary64.half (binary64.width binary64.tenth binary64.fifth))
         = false).
Proof.
  split; [|split; [|split]].
  - vm_compute. repeat split; try discriminate.
    + intros Hle. apply Hle. reflexivity.
    + intros Hle. apply Hle. reflexivity.
  - vm_compute. repeat split. discriminate.
  - vm_compute. repeat split.
  - vm_compute. repeat split.
Qed.

(** ** The scan for a first root *)

Section scan_facts.
Context `{Optimize} {Args : Type}.
Variable function : Q -> Args -> Q.
Variable function_args : Args.
Variable lowbound : Q.
Variable highbound : option Q.
Variable delta : Q.

Let turn := scan_step function function_args lowbound highbound delta.
Let run := scan function function_args lowbound highbound delta.
Let reaches := scan_reaches function function_args lowbound highbound delta.

Lemma scan_reaches_scan (k n : nat) (s0 s : scan_state) :
  reaches k s0 s -> run (k + n) s0 = run n s.
Proof.
  induction 1 as [s|k s s' s'' Hstep _ IH]; [reflexivity|].
  cbn [Nat.add]. unfold run. cbn [scan]. rewrite Hstep. exact IH.
Qed.

Lemma scan_reaches_snoc (k : nat) (s0 s s' : scan_state) :
  reaches k s0 s -> turn s = Next s' -> reaches (S k) s0 s'.
Proof.
  induction 1 as [s|k s0 s1 s Hstep _ IH]; intros Hnext.
  - apply reach_next with (s' := s'); [exact Hnext | apply reach_here].
  - apply reach_next with (s' := s1); [exact Hstep | now apply IH].
Qed.

Lemma scan_stops_at (m k : nat) (s0 s : scan_state) (v : value)
    (log : list log_record) :
  reaches k s0 s -> (k < m)%nat -> turn s = Stop v log ->
  run m s0 = Found v log.
Proof.
  intros Hreach Hlt Hstop.
  replace m with (k + S (m - S k))%nat by lia.
  rewrite (scan_reaches_scan k _ s0 s Hreach).
  unfold run. cbn [scan]. unfold turn in Hstop. rewrite Hstop.
  reflexivity.
Qed.

(** What one turn of the scan does at a bracket: a sample [b] that does
    not cross the bound, at which the function is not zero and has the
    sign opposite to the one at [a]. *)
Lemma scan_step_bracket (s : scan_state) :
  let b := fst (next_sample delta s) in
  let fb := function b function_args in
  let z := brentq function (scan_a s) b function_args (1 / 10 ^ 20) in
  let fz := function z function_args in
  truthy_opt highbound && crosses b highbound lowbound = false ->
  ~ fb == 0 ->
  sign_change (scan_fa s) fb = true ->
  turn s
  = if attenuates (scan_fa s) fz fb
    then Stop (Real z) (logger_debug (skipped (scan_fa s) fz fb))
    else Next {| scan_a := b; scan_fa := fb;
                 scan_ipoints := snd (next_sample delta s) |}.
Proof.
  intros b fb z fz Hcross Hfb Hsign. unfold turn, scan_step.
  subst b fb z fz. destruct (next_sample delta s) as [b rest].
  cbn [fst snd] in *. rewrite Hcross.
  destruct (Qeq_bool (function b function_args) 0) eqn:E.
  - exfalso. apply Hfb. now apply Qeq_bool_iff.
  - rewrite Hsign. reflexivity.
Qed.
End scan_facts.

Section first_root_facts.
Context `{Optimize} {Args : Type}.
Variable function : Q -> Args -> Q.
Variable function_args : Args.

(** The state in which the scan starts. *)
Let start (lowbound : Q) (ipoints : list Q) : scan_state :=
  {| scan_a := lowbound;
     scan_fa := function lowbound function_args;
     scan_ipoints := ipoints |}.

Lemma find_function_first_root_scan (fuel : nat) (lowbound : Q)
    (highbound : option Q) (ipoints : list Q) (delta : Q)
    (maxiter : count) (m : Z) :
  scan_budget lowbound highbound ipoints delta maxiter = inr (Int m) ->
  ~ function lowbound function_args == 0 ->
  find_function_first_root function function_args (S fuel) lowbound
    highbound ipoints delta maxiter
  = match scan function function_args lowbound highbound delta
            (Z.to_nat m) (start lowbound ipoints) with
    | Found v log => Return v log
    | Exhausted ipoints' =>
        if truthy_opt highbound && Z.ltb m 100 then
          find_function_first_root function function_args fuel lowbound
            highbound ipoints' (delta / 10) (Int m)
        else
          Return nan
            (logger_info (maxiter_reached (Int m) lowbound highbound))
    end.
Proof.
  intros Hbudget Hfa. cbn [find_function_first_root]. rewrite Hbudget.
  destruct (Qeq_bool (function lowbound function_args) 0) eqn:E.
  - exfalso. apply Hfa. now apply Qeq_bool_iff.
  - reflexivity.
Qed.

Lemma find_function_first_root_returns_at (fuel : nat) (lowbound : Q)
    (highbound : option Q) (ipoints : list Q) (delta : Q)
    (maxiter : count) (m : Z) (k : nat) (s : scan_state) (v : value)
    (log : list log_record) :
  scan_budget lowbound highbound ipoints delta maxiter = inr (Int m) ->
  ~ function lowbound function_args == 0 ->
  scan_reaches function function_args lowbound highbound delta k
    (start lowbound ipoints) s ->
  (k < Z.to_nat m)%nat ->
  scan_step function function_args lowbound highbound delta s
  = Stop v log ->
  find_function_first_root function function_args (S fuel) lowbound
    highbound ipoints delta maxiter
  = Return v log.
Proof.
  intros Hbudget Hfa Hreach Hlt Hstop.
  rewrite (find_function_first_root_scan fuel lowbound highbound ipoints
             delta maxiter m Hbudget Hfa).
  now rewrite (scan_stops_at function function_args lowbound highbound
                 delta (Z.to_nat m) k _ s v log Hreach Hlt Hstop).
Qed.
End first_root_facts.

Section rejection_facts.
Context `{Optimize} {Args : Type}.
Variable function : Q -> Args -> Q.
Variable function_args : Args.

Let start (lowbound : Q) (ipoints : list Q) : scan_state :=
  {| scan_a := lowbound;
     scan_fa := function lowbound function_args;
     scan_ipoints := ipoints |}.

Lemma bracket_step_bracket (x_low x_high y_low y_high : Q) :
  numpy_sign y_low <> numpy_sign y_high ->
  let x_root := brentq function x_low x_high function_args brentq_xtol in
  let y_root := function x_root function_args in
  bracket_step function function_args (x_low, x_high, y_low, y_high)
  = if attenuates y_low y_root y_high then Stop (Real x_root) []
    else Next (update_root_range function function_args x_low x_high
                 y_low y_high).
Proof.
  intros Hsign x_root y_root. unfold bracket_step.
  apply Z.eqb_neq in Hsign. rewrite Hsign. reflexivity.
Qed.

(** C3 (amended): a sign change between consecutive samples [a] and [b]
    is refined by [brentq] to a candidate [z], and that turn returns [z]
    if and only if [|f(z)| < |f(a)|] and [|f(z)| < |f(b)|].  In
    [find_function_first_root] the call then returns [z]; when the test
    fails the candidate is dropped and the scan goes on from [b].  In
    [_find_root_within_range] the candidate is the root of the bracket
    [(x_low, x_high)]; when the test fails it is dropped and the search
    goes on with the half of the bracket that [update_root_range]
    keeps. *)
Theorem discontinuity_test :
  (forall (lowbound : Q) (highbound : option Q) (delta : Q)
          (s : scan_state),
      let a := scan_a s in
      let fa := scan_fa s in
      let b := fst (next_sample delta s) in
      let fb := function b function_args in
      let z := brentq function a b function_args (1 / 10 ^ 20) in
      let fz := function z function_args in
      let s' := {| scan_a := b; scan_fa := fb;
                   scan_ipoints := snd (next_sample delta s) |} in
      truthy_opt highbound && crosses b highbound lowbound = false ->
      ~ fb == 0 ->
      sign_change fa fb = true ->
      (scan_step function function_args lowbound highbound delta s
       = Stop (Real z) (logger_debug (skipped fa fz fb))
       <-> Qabs fz < Qabs fa /\ Qabs fz < Qabs fb)
      /\ (~ (Qabs fz < Qabs fa /\ Qabs fz < Qabs fb) ->
          scan_step function function_args lowbound highbound delta s
          = Next s')
      /\ (forall (fuel : nat) (ipoints : list Q) (maxiter : count) (m : Z)
                 (k : nat),
             scan_budget lowbound highbound ipoints delta maxiter
             = inr (Int m) ->
             ~ function lowbound function_args == 0 ->
             scan_reaches function function_args lowbound highbound delta
               k (start lowbound ipoints) s ->
             (k < Z.to_nat m)%nat ->
             (Qabs fz < Qabs fa /\ Qabs fz < Qabs fb ->
              find_function_first_root function function_args (S fuel)
                lowbound highbound ipoints delta maxiter
              = Return (Real z) (logger_debug (skipped fa fz fb)))
             /\ (~ (Qabs fz < Qabs fa /\ Qabs fz < Qabs fb) ->
                 scan_reaches function function_args lowbound highbound
                   delta (S k) (start lowbound ipoints) s')))
  /\ (forall (x_low x_high y_low y_high : Q),
        let x_root :=
          brentq function x_low x_high function_args brentq_xtol in
        let y_root := function x_root function_args in
        numpy_sign y_low <> numpy_sign y_high ->
        (bracket_step function function_args
           (x_low, x_high, y_low, y_high)
         = Stop (Real x_root) []
         <-> Qabs y_root < Qabs y_low /\ Qabs y_root < Qabs y_high)
        /\ (~ (Qabs y_root < Qabs y_low /\ Qabs y_root < Qabs y_high) ->
            bracket_step function function_args
              (x_low, x_high, y_low, y_high)
            = Next (update_root_range function function_args x_low x_high
                      y_low y_high))).
Proof.
  split.
  - intros lowbound highbound delta s a fa b fb z fz s' Hcross Hfb Hsign.
    pose proof (scan_step_bracket function function_args lowbound
                  highbound delta s Hcross Hfb Hsign) as Hstep.
    cbv zeta in Hstep. fold a fa b fb z fz s' in Hstep. fold fz in Hstep.
    pose proof (attenuates_iff fa fz fb) as Htest.
    destruct (attenuates fa fz fb).
    + assert (Hyes : Qabs fz < Qabs fa /\ Qabs fz < Qabs fb)
        by now apply Htest.
      split; [|split].
      * split; [intros _; exact Hyes | intros _; exact Hstep].
      * intros Hno. contradiction.
      * intros fuel ipoints maxiter m k Hbudget Hfa Hreach Hlt. split.
        -- intros _.
           now apply (find_function_first_root_returns_at function
                        function_args fuel lowbound highbound ipoints
                        delta maxiter m k s).
        -- intros Hno. contradiction.
    + assert (Hno : ~ (Qabs fz < Qabs fa /\ Qabs fz < Qabs fb)).
      { intros Hyes. apply Htest in Hyes. discriminate. }
      split; [|split].
      * rewrite Hstep. split; [discriminate | intros Hyes; contradiction].
      * intros _. exact Hstep.
      * intros fuel ipoints maxiter m k Hbudget Hfa Hreach Hlt. split.
        -- intros Hyes. contradiction.
        -- intros _.
           now apply (scan_reaches_snoc function function_args lowbound
                        highbound delta k _ s s').
  - intros x_low x_high y_low y_high x_root y_root Hsign.
    pose proof (bracket_step_bracket x_low x_high y_low y_high Hsign)
      as Hstep.
    cbv zeta in Hstep. fold x_root y_root in Hstep. fold y_root in Hstep.
    pose proof (attenuates_iff y_low y_root y_high) as Htest.
    destruct (attenuates y_low y_root y_high).
    + assert (Hyes : Qabs y_root < Qabs y_low /\ Qabs y_root < Qabs y_high)
        by now apply Htest.
      split.
      * split; [intros _; exact Hyes | intros _; exact Hstep].
      * intros Hno. contradiction.
    + assert (Hno : ~ (Qabs y_root < Qabs y_low
                       /\ Qabs y_root < Qabs y_high)).
      { intros Hyes. apply Htest in Hyes. discriminate. }
      split.
      * rewrite Hstep. split; [discriminate | intros Hyes; contradiction].
      * intros _. exact Hstep.
Qed.
End rejection_facts.

Lemma discontinuity_test_witness :
  let f : Q -> unit -> Q := fun x _ => x - (1 # 3) in
  let s := {| scan_a := 0; scan_fa := - (1 # 3); scan_ipoints := [] |} in
  sign_change (scan_fa s) (f 1 tt) = true
  /\ @scan_step bisection_optimize unit f tt 0 (Some 2) 1 s
     = Stop (Real (683 # 2048))
         (logger_debug (skipped (- (1 # 3)) (1 # 6144) (2 # 3)))
  /\ @find_function_first_root bisection_optimize unit f tt 1 0 (Some 2) []
       1 inf
     = Return (Real (683 # 2048))
         (logger_debug (skipped (- (1 # 3)) (1 # 6144) (2 # 3)))
  /\ numpy_sign (- (1 # 3)) <> numpy_sign (2 # 3)
  /\ @bracket_step bisection_optimize unit f tt (0, 1, - (1 # 3), 2 # 3)
     = Stop (Real (683 # 2048)) [].
Proof.
  intros f s.
  assert (Hcross : truthy_opt (Some 2)
                   && crosses (fst (next_sample 1 s)) (Some 2) 0 = false)
    by reflexivity.
  assert (Hfb : ~ f (fst (next_sample 1 s)) tt == 0)
    by (vm_compute; discriminate).
  assert (Hsign : sign_change (scan_fa s) (f (fst (next_sample 1 s)) tt)
                  = true) by reflexivity.
  destruct (proj1 (@discontinuity_test bisection_optimize unit f tt)
              0 (Some 2) 1 s Hcross Hfb Hsign) as (Hiff & _ & Hcall).
  assert (Hyes : Qabs (1 # 6144) < Qabs (- (1 # 3))
                 /\ Qabs (1 # 6144) < Qabs (2 # 3))
    by (split; reflexivity).
  assert (Hsigns : numpy_sign (- (1 # 3)) <> numpy_sign (2 # 3))
    by (vm_compute; discriminate).
  split; [exact Hsign|]. split; [|split; [|split]].
  - exact (proj2 Hiff Hyes).
  - refine (proj1 (Hcall 0%nat [] inf 2%Z 0%nat _ _ _ _) Hyes).
    + reflexivity.
    + vm_compute. discriminate.
    + apply reach_here.
    + vm_compute. lia.
  - exact Hsigns.
  - exact (proj2 (proj1 (proj2 (@discontinuity_test bisection_optimize unit
                                  f tt)
                           0 1 (- (1 # 3)) (2 # 3) Hsigns)) Hyes).
Defined.

Lemma tiny_pole_no_zero (x : Q) : ~ tiny_pole x tt == 0.
Proof.
  unfold tiny_pole. cbv zeta.
  destruct (Qeq_bool (x - (1 # 3)) 0) eqn:E.
  - vm_compute. discriminate.
  - apply Qeq_bool_neq in E. intros Hz.
    set (d := x - (1 # 3)) in *.
    assert (Hm : d * (d + 1 / 10 ^ 30 / d) == d * d + 1 / 10 ^ 30)
      by (field; exact E).
    rewrite Hz in Hm.
    assert (He : 0 < 1 / 10 ^ 30) by reflexivity.
    nra.
Qed.

(** C3 (as stated) fails twice.  The test does not reject every sign
    change that a pole induces: [tiny_pole] has no zero, changes sign
    between the samples [0] and [1] at its pole only, and the candidate
    next to the pole passes the test and is returned, by
    [find_function_first_root] and by [_find_root_within_range].  And
    [_find_root_within_range] does not go on from [b] past the bracket
    after a rejection: for [1 / (x - 1)] on [(0, 3)] the candidate near
    the pole is dropped and the search goes on with [(0, 3/2)]. *)
Lemma discontinuity_test_counterexample :
  ((forall x : Q, ~ tiny_pole x tt == 0)
   /\ sign_change (tiny_pole 0 tt) (tiny_pole 1 tt) = true
   /\ @brentq bisection_optimize unit tiny_pole 0 1 tt (1 / 10 ^ 20)
      = 683 # 2048
   /\ (exists log,
         @find_function_first_root bisection_optimize unit tiny_pole tt 1 0
           (Some 2) [] 1 inf
         = Return (Real (683 # 2048)) log)
   /\ @_find_root_within_range bisection_optimize unit tiny_pole tt 0 1 20
      = (Real (683 # 2048), []))
  /\ (let pole : Q -> unit -> Q := fun x _ => 1 / (x - 1) in
      numpy_sign (pole 0 tt) <> numpy_sign (pole 3 tt)
      /\ @brentq bisection_optimize unit pole 0 3 tt brentq_xtol
         = 2049 # 2048
      /\ attenuates (pole 0 tt) (pole (2049 # 2048) tt) (pole 3 tt) = false
      /\ exists x_low' x_high' y_low' y_high',
           @bracket_step bisection_optimize unit pole tt
             (0, 3, pole 0 tt, pole 3 tt)
           = Next (x_low', x_high', y_low', y_high')
           /\ x_low' = 0 /\ x_high' = 3 # 2
           /\ ~ 3 <= x_low' /\ x_high' < 3).
Proof.
  split.
  - split; [exact tiny_pole_no_zero|].
    split; [vm_compute; reflexivity|]. split; [vm_compute; reflexivity|].
    split; [eexists; vm_compute; reflexivity | vm_compute; reflexivity].
  - intros pole. split; [vm_compute; discriminate|].
    split; [vm_compute; reflexivity|]. split; [vm_compute; reflexivity|].
    eexists. eexists. eexists. eexists.
    split; [vm_compute; reflexivity|].
    repeat split.
    vm_compute. intros Hle. apply Hle. reflexivity.
Qed.

(** ** Restarts of the scan and the sentinel *)

Section restart_facts.
Context `{Optimize} {Args : Type}.
Variable function : Q -> Args -> Q.
Variable function_args : Args.

Let start (lowbound : Q) (ipoints : list Q) : scan_state :=
  {| scan_a := lowbound;
     scan_fa := function lowbound function_args;
     scan_ipoints := ipoints |}.

Lemma scan_step_crosses (lowbound : Q) (highbound : option Q) (delta : Q)
    (s : scan_state) :
  truthy_opt highbound = true ->
  crosses (fst (next_sample delta s)) highbound lowbound = true ->
  scan_step function function_args lowbound highbound delta s
  = Stop nan (logger_info no_root_within_range).
Proof.
  intros Hhigh Hcross. unfold scan_step.
  destruct (next_sample delta s) as [b rest]. cbn [fst] in Hcross.
  now rewrite Hhigh, Hcross.
Qed.

(** C6 (amended): with a highbound that is given and not zero, a scan
    that uses up its budget [maxiter] without returning is started again
    from [lowbound] with [delta / 10] when [maxiter < 100], and the call
    returns [nan] when [maxiter >= 100]; the call returns [nan] as well
    as soon as a sample crosses the highbound. *)
Theorem restart_or_nan (fuel : nat) (lowbound h : Q) (ipoints : list Q)
    (delta : Q) (maxiter : count) (m : Z) :
  ~ h == 0 ->
  scan_budget lowbound (Some h) ipoints delta maxiter = inr (Int m) ->
  ~ function lowbound function_args == 0 ->
  (forall ipoints' : list Q,
      scan function function_args lowbound (Some h) delta (Z.to_nat m)
        (start lowbound ipoints)
      = Exhausted ipoints' ->
      ((m < 100)%Z ->
       find_function_first_root function function_args (S fuel) lowbound
         (Some h) ipoints delta maxiter
       = find_function_first_root function function_args fuel lowbound
           (Some h) ipoints' (delta / 10) (Int m))
      /\ ((100 <= m)%Z ->
          find_function_first_root function function_args (S fuel)
            lowbound (Some h) ipoints delta maxiter
          = Return nan
              (logger_info (maxiter_reached (Int m) lowbound (Some h)))))
  /\ (forall (k : nat) (s : scan_state),
        scan_reaches function function_args lowbound (Some h) delta k
          (start lowbound ipoints) s ->
        (k < Z.to_nat m)%nat ->
        crosses (fst (next_sample delta s)) (Some h) lowbound = true ->
        find_function_first_root function function_args (S fuel) lowbound
          (Some h) ipoints delta maxiter
        = Return nan (logger_info no_root_within_range)).
Proof.
  intros Hh Hbudget Hfa. apply truthy_true_iff in Hh. split.
  - intros ipoints' Hscan.
    rewrite (find_function_first_root_scan function function_args fuel
               lowbound (Some h) ipoints delta maxiter m Hbudget Hfa).
    fold (start lowbound ipoints). rewrite Hscan. cbn [truthy_opt].
    rewrite Hh. cbn [andb]. split; intros Hm.
    + apply Z.ltb_lt in Hm. now rewrite Hm.
    + apply Z.ltb_ge in Hm. now rewrite Hm.
  - intros k s Hreach Hlt Hcross.
    apply (find_function_first_root_returns_at function function_args
             fuel lowbound (Some h) ipoints delta maxiter m k s);
      try assumption.
    now apply scan_step_crosses.
Qed.
End restart_facts.

Lemma restart_or_nan_witness :
  let f : Q -> unit -> Q := fun _ _ => 1 in
  ~ 1 == 0
  /\ (@scan bisection_optimize unit f tt 0 (Some 1) (1 # 4) 4
        {| scan_a := 0; scan_fa := 1; scan_ipoints := [] |}
      = Exhausted []
      /\ @find_function_first_root bisection_optimize unit f tt 3 0 (Some 1)
           [] (1 # 4) inf
         = @find_function_first_root bisection_optimize unit f tt 2 0
             (Some 1) [] ((1 # 4) / 10) (Int 4))
  /\ (@scan bisection_optimize unit f tt 0 (Some 1) (1 # 400) 400
        {| scan_a := 0; scan_fa := 1; scan_ipoints := [] |}
      = Exhausted []
      /\ @find_function_first_root bisection_optimize unit f tt 1 0 (Some 1)
           [] (1 # 400) inf
         = Return nan (logger_info (maxiter_reached (Int 400) 0 (Some 1))))
  /\ (crosses (3 # 2) (Some 1) 0 = true
      /\ @find_function_first_root bisection_optimize unit f tt 1 0 (Some 1)
           [1 # 2; 3 # 2] (1 # 4) inf
         = Return nan (logger_info no_root_within_range)).
Proof.
  intros f.
  assert (Hh : ~ 1 == 0) by (vm_compute; discriminate).
  assert (Hscan : @scan bisection_optimize unit f tt 0 (Some 1) (1 # 4)
                    (Z.to_nat 4)
                    {| scan_a := 0; scan_fa := f 0 tt; scan_ipoints := [] |}
                  = Exhausted []) by reflexivity.
  assert (Hscan' : @scan bisection_optimize unit f tt 0 (Some 1) (1 # 400)
                     (Z.to_nat 400)
                     {| scan_a := 0; scan_fa := f 0 tt; scan_ipoints := [] |}
                   = Exhausted []) by (vm_compute; reflexivity).
  split; [exact Hh|]. split; [|split].
  - split; [exact Hscan|].
    refine (proj1 (proj1 (@restart_or_nan bisection_optimize unit f tt 2 0 1
                            [] (1 # 4) inf 4 Hh _ Hh) [] Hscan) _);
      reflexivity.
  - split; [exact Hscan'|].
    refine (proj2 (proj1 (@restart_or_nan bisection_optimize unit f tt 0 0 1
                            [] (1 # 400) inf 400 Hh _ Hh) [] Hscan') _).
    + reflexivity.
    + lia.
  - split; [reflexivity|].
    refine (proj2 (@restart_or_nan bisection_optimize unit f tt 0 0 1
                     [1 # 2; 3 # 2] (1 # 4) inf 2 Hh _ Hh) 1%nat
              {| scan_a := 1 # 2; scan_fa := 1; scan_ipoints := [3 # 2] |}
              _ _ _).
    + reflexivity.
    + eapply reach_next; [reflexivity | apply reach_here].
    + vm_compute. lia.
    + reflexivity.
Defined.

(** C6 (as stated) fails for the highbound [0.0], which [if highbound:]
    takes as not given: a sample beyond it is evaluated and returned, and
    a scan that uses up a budget below 100 is not started again. *)
Lemma restart_or_nan_counterexample :
  (crosses 1 (Some 0) (- (1)) = true
   /\ @find_function_first_root bisection_optimize unit
        (fun x _ => x - 1) tt 1 (- (1)) (Some 0) [] 1 (Int 2)
      = Return (Real 1) [])
  /\ (@scan bisection_optimize unit (fun _ _ => 1) tt (- (1)) (Some 0) 1 2
        {| scan_a := - (1); scan_fa := 1; scan_ipoints := [] |}
      = Exhausted []
      /\ @find_function_first_root bisection_optimize unit
           (fun _ _ => 1) tt 1 (- (1)) (Some 0) [] 1 (Int 2)
         = Return nan
             (logger_info (maxiter_reached (Int 2) (- (1)) (Some 0)))).
Proof. repeat split. Qed.

(** * Further properties of the layer *)

Lemma Qabs_opp_eq (x : Q) : Qabs (- x) = Qabs x.
Proof. destruct x as [n d]. cbn. now rewrite Z.abs_opp. Qed.

Section layer_errors.
Context `{Numerics} `{constants.t}.

(** X1: the index of a layer does not depend on the sign of the radius,
    and the argument [u] changes sign with it. *)
Theorem radius_sign (self : StepIndex) (radius neff : Q)
    (wavelength : Wavelength.t) :
  get_index self (- radius) wavelength = get_index self radius wavelength
  /\ match get_U_W_parameter self radius neff wavelength with
     | Done u _ =>
         exists u',
           get_U_W_parameter self (- radius) neff wavelength = Done u' []
           /\ u' == - u
     | Raised e =>
         get_U_W_parameter self (- radius) neff wavelength = Raised e
     end.
Proof.
  assert (Hidx : get_index self (- radius) wavelength
                 = get_index self radius wavelength).
  { unfold get_index. now rewrite Qabs_opp_eq. }
  split; [exact Hidx|].
  unfold get_U_W_parameter. rewrite Hidx.
  destruct (get_index self radius wavelength) as [n|]; [|reflexivity].
  cbn. eexists. split; [reflexivity|]. ring.
Qed.


(** X3: inside the layer, [Psi] raises [IndexError] for a [C] of fewer
    than two entries, and [lpConstants] for an [A] of fewer than two, in
    either regime. *)
Theorem short_coefficients_raise (self : StepIndex) (radius neff : Q)
    (wavelength : Wavelength.t) (nu : Z) (C : list Q) :
  radius_in self <= Qabs radius <= radius_out self ->
  (length C < 2)%nat ->
  Psi self radius neff wavelength nu C = Raised IndexError
  /\ lpConstants self radius neff wavelength nu C = Raised IndexError.
Proof.
  intros Hin Hlen. unfold Psi, lpConstants, get_U_W_parameter.
  rewrite (get_index_inside self radius wavelength Hin). cbn [bind ret].
  destruct C as [|C0 [|C1 C']]; [| |cbn in Hlen; lia];
    destruct (Qlt_bool neff (get_maximum_index self wavelength));
    split; reflexivity.
Qed.

(** X4: [Psi] with [C[1] = 0] calls the functions of the first kind only
    (J and J', or I and I'), so that it can be evaluated at the origin,
    where those of the second kind are unbounded; with [C[1]] not zero it
    calls all four functions of its regime. *)
Theorem Psi_second_kind (self : StepIndex) (radius neff : Q)
    (wavelength : Wavelength.t) (nu : Z) (C0 C1 : Q) (rest : list Q)
    (r : Q * Q) (log : list event) :
  Psi self radius neff wavelength nu (C0 :: C1 :: rest) = Done r log ->
  called log
  = match Qlt_bool neff (get_maximum_index self wavelength), truthy C1 with
    | true, true => [Jn; Yn; Jvp; Yvp]
    | true, false => [Jn; Jvp]
    | false, true => [Iv; Kn; Ivp; Kvp]
    | false, false => [Iv; Ivp]
    end
  /\ (C1 == 0 -> existsb second_kind (called log) = false).
Proof.
  unfold Psi, get_U_W_parameter.
  destruct (get_index self radius wavelength) as [n|]; [|discriminate].
  cbn [bind ret getitem nth_error].
  intros Hrun. assert (Hcalls : called log
    = match Qlt_bool neff (get_maximum_index self wavelength), truthy C1 with
      | true, true => [Jn; Yn; Jvp; Yvp]
      | true, false => [Jn; Jvp]
      | false, true => [Iv; Kn; Ivp; Kvp]
      | false, false => [Iv; Ivp]
      end).
  { destruct (Qlt_bool neff (get_maximum_index self wavelength));
      destruct (truthy C1); cbn in Hrun; injection Hrun as _ <-;
      reflexivity. }
  split; [exact Hcalls|].
  intros HC1. apply truthy_false_iff in HC1. rewrite Hcalls, HC1.
  destruct (Qlt_bool neff (get_maximum_index self wavelength)); reflexivity.
Qed.

(** X5: in exact arithmetic, [lpConstants] is linear in [A]: on the sum
    of two vectors it returns the sum of the two results.  (On the
    machine's floats the two sides agree up to rounding only.) *)
Theorem lpConstants_additive (self : StepIndex) (radius neff : Q)
    (wavelength : Wavelength.t) (nu : Z) (a0 a1 b0 b1 : Q)
    (ta tb : Q * Q) (la lb : list event) :
  lpConstants self radius neff wavelength nu [a0; a1] = Done ta la ->
  lpConstants self radius neff wavelength nu [b0; b1] = Done tb lb ->
  exists t l,
    lpConstants self radius neff wavelength nu [a0 + b0; a1 + b1]
    = Done t l
    /\ fst t == fst ta + fst tb /\ snd t == snd ta + snd tb.
Proof.
  unfold lpConstants, get_U_W_parameter.
  destruct (get_index self radius wavelength) as [n|]; [|discriminate].
  cbn [bind ret].
  destruct (Qlt_bool neff (get_maximum_index self wavelength)); cbn;
    intros [= <- _] [= <- _]; eexists; eexists;
    (split; [reflexivity|]); cbn [fst snd]; split; ring.
Qed.
End layer_errors.

(** * Further properties of the boundary matching *)

Lemma count_solve_app (l1 l2 : list event) :
  count_solve (l1 ++ l2) = (count_solve l1 + count_solve l2)%nat.
Proof.
  induction l1 as [|e l1 IH]; [reflexivity|].
  destruct e; cbn; now rewrite IH.
Qed.

Lemma getitem_log (xs : list Q) (i : nat) (x : Q) (log : list event) :
  getitem xs i = Done x log -> log = [].
Proof.
  unfold getitem. destruct (nth_error xs i); [|discriminate].
  now intros [= _ <-].
Qed.

Lemma set_slice_Done (c : list Q) (start : nat) (x : ndarray)
    (c' : list Q) (log : list event) :
  set_slice c start x = Done c' log ->
  log = []
  /\ exists x0 x1, c' = list_set (list_set c start x0) (S start) x1.
Proof.
  unfold set_slice. destruct x as [[|x0 [|x1 [|x2 v]]]|m]; try discriminate;
    intros [= <- <-]; split; try reflexivity; eexists; eexists; reflexivity.
Qed.

Section matcher_facts.
Context `{Numerics} `{constants.t}.

Lemma vConstants_F_log (nu : Z) (neff maximum_index u urp : Q)
    (wavelength : Wavelength.t) (radius_out : Q) (r : ratios)
    (log : list event) :
  vConstants_F nu neff maximum_index u urp wavelength radius_out = Done r log ->
  count_solve log = 0%nat.
Proof.
  unfold vConstants_F, truediv, truthy.
  destruct (Qlt_bool neff maximum_index); destruct (Qeq_bool u 0); cbn;
    try discriminate; intros [= _ <-]; reflexivity.
Qed.

Lemma tetmConstants_F_log (neff maximum_index u urp : Q)
    (wavelength : Wavelength.t) (radius_out : Q) (r : ratios)
    (log : list event) :
  tetmConstants_F neff maximum_index u urp wavelength radius_out = Done r log ->
  count_solve log = 0%nat.
Proof.
  unfold tetmConstants_F, truediv.
  destruct (Qlt_bool neff maximum_index); destruct (Qeq_bool u 0); cbn;
    try discriminate; intros [= _ <-]; reflexivity.
Qed.

Lemma EH_fields_F_log (nu : Z) (neff maximum_index u : Q)
    (wavelength : Wavelength.t) (radius_out : Q) (r : Q * Q * Q)
    (log : list event) :
  EH_fields_F nu neff maximum_index u wavelength radius_out = Done r log ->
  count_solve log = 0%nat.
Proof.
  unfold EH_fields_F, truediv.
  destruct (Qlt_bool neff maximum_index); destruct (Qeq_bool u 0); cbn;
    try discriminate; intros [= _ <-]; reflexivity.
Qed.

Lemma solve_Done (a : list (list Q)) (b x : ndarray) (log : list event) :
  solve a b = Done x log ->
  numpy_linalg_solve a b = Some x /\ log = [Solve a b].
Proof.
  unfold solve. destruct (numpy_linalg_solve a b); [|discriminate].
  intros [= <- <-]. now split.
Qed.

(** What a boundary matcher that returns has done: it has solved one
    system, of four equations with [EH] on the right-hand side or of two
    with the entries of [EH] at [idx], and returns the solution. *)
Lemma vConstants_Done (self : StepIndex) (radius_in radius_out neff : Q)
    (wavelength : Wavelength.t) (nu : Z) (EH x : ndarray)
    (log : list event) :
  vConstants self radius_in radius_out neff wavelength nu EH = Done x log ->
  exists a,
    numpy_linalg_solve a EH = Some x
    /\ length a = 4%nat
    /\ Forall (fun row => length row = 4%nat) a
    /\ count_solve log = 1%nat
    /\ In (Solve a EH) log.
Proof.
  unfold vConstants. intros Hrun.
  invert_bind Hrun. apply get_U_W_parameter_log in E. subst.
  invert_bind Hrun. apply get_U_W_parameter_log in E. subst.
  invert_bind Hrun. apply vConstants_F_log in E.
  invert_bind_as Hrun q Hq. apply truediv_Done in Hq.
  destruct Hq as (_ & _ & ->).
  apply solve_Done in Hrun. destruct Hrun as [Hsolve ->]. subst.
  eexists. split; [exact Hsolve|]. split; [reflexivity|].
  split; [repeat constructor|]. split.
  - cbn [app]. rewrite count_solve_app, E. reflexivity.
  - cbn [app]. apply in_or_app. right. now left.
Qed.

Lemma tetmConstants_Done (self : StepIndex) (radius_in radius_out neff : Q)
    (wavelength : Wavelength.t) (EH : ndarray) (c : Q) (idx : nat * nat)
    (x : ndarray) (log : list event) :
  tetmConstants self radius_in radius_out neff wavelength EH c idx
  = Done x log ->
  exists a e e',
    nth_error (flatten EH) (fst idx) = Some e
    /\ nth_error (flatten EH) (snd idx) = Some e'
    /\ numpy_linalg_solve a (Arr1 [e; e']) = Some x
    /\ length a = 2%nat
    /\ Forall (fun row => length row = 2%nat) a
    /\ count_solve log = 1%nat
    /\ In (Solve a (Arr1 [e; e'])) log.
Proof.
  unfold tetmConstants. intros Hrun.
  invert_bind Hrun. apply get_U_W_parameter_log in E. subst.
  invert_bind Hrun. apply get_U_W_parameter_log in E. subst.
  invert_bind Hrun. apply tetmConstants_F_log in E.
  invert_bind Hrun. unfold take, getitem in E0.
  destruct (nth_error (flatten EH) (fst idx)) as [e|] eqn:Ee;
    [|discriminate].
  destruct (nth_error (flatten EH) (snd idx)) as [e'|] eqn:Ee';
    [|discriminate].
  cbn in E0. injection E0 as <- <-. subst.
  apply solve_Done in Hrun. destruct Hrun as [Hsolve ->]. subst.
  eexists. exists e, e'. split; [reflexivity|]. split; [reflexivity|].
  split; [exact Hsolve|]. split; [reflexivity|].
  split; [repeat constructor|]. split.
  - cbn [app]. rewrite count_solve_app, E. reflexivity.
  - cbn [app]. apply in_or_app. right. now left.
Qed.

(** X6: with both radii inside the layer and an argument [u] at the
    outer radius that is not zero, [tetmConstants] raises [IndexError]
    when [EH], flattened, has no entry at one of the two indices [idx],
    and it has solved no system then.  (At [u = 0] it raises
    [ZeroDivisionError] before it reads [EH].) *)
Theorem tetmConstants_short_EH (self : StepIndex)
    (r_in r_out neff : Q) (wavelength : Wavelength.t)
    (EH : ndarray) (c : Q) (idx : nat * nat) (u : Q) :
  radius_in self <= Qabs r_in <= radius_out self ->
  get_U_W_parameter self r_out neff wavelength = Done u [] ->
  ~ u == 0 ->
  (length (flatten EH) <= Nat.max (fst idx) (snd idx))%nat ->
  tetmConstants self r_in r_out neff wavelength EH c idx
  = Raised IndexError.
Proof.
  intros Hin Hu Hzero Hlen. unfold tetmConstants. rewrite Hu.
  unfold get_U_W_parameter.
  rewrite (get_index_inside self r_in wavelength Hin).
  cbn [bind ret].
  assert (Hq : Qeq_bool u 0 = false).
  { apply not_true_iff_false. now rewrite Qeq_bool_iff. }
  assert (Htake : take EH idx = Raised IndexError).
  { unfold take, getitem.
    destruct (nth_error (flatten EH) (fst idx)) as [e|] eqn:Ee;
      [|reflexivity].
    destruct (nth_error (flatten EH) (snd idx)) as [e'|] eqn:Ee';
      [|reflexivity].
    exfalso.
    assert (fst idx < length (flatten EH))%nat
      by (apply nth_error_Some; congruence).
    assert (snd idx < length (flatten EH))%nat
      by (apply nth_error_Some; congruence).
    lia. }
  unfold tetmConstants_F, truediv. rewrite Hq.
  destruct (Qlt_bool neff (get_maximum_index self wavelength)); cbn;
    rewrite Htake; reflexivity.
Qed.
End matcher_facts.

(** * Further properties of the field evaluation *)

Lemma list_set_length {A : Type} (xs : list A) (i : nat) (x : A) :
  length (list_set xs i x) = length xs.
Proof.
  revert i. induction xs as [|h t IH]; intros [|i]; cbn; try reflexivity.
  now rewrite IH.
Qed.

Lemma skipn_list_set {A : Type} (n : nat) (xs : list A) (i : nat) (x : A) :
  (i < n)%nat -> skipn n (list_set xs i x) = skipn n xs.
Proof.
  revert xs i. induction n as [|n IH]; intros xs i Hlt; [lia|].
  destruct xs as [|h t]; [reflexivity|].
  destruct i as [|i]; cbn; [reflexivity|]. apply IH. lia.
Qed.

(** [a[i] = c] keeps the shape of [a] and writes row [i] only. *)
Lemma setrow_Done (a : ndarray) (i : nat) (c : cell) (a' : ndarray)
    (log : list event) :
  setrow a i c = Done a' log ->
  match a, a' with
  | Arr1 v, Arr1 v' => exists x, v' = list_set v i x
  | Arr2 m, Arr2 m' => exists r, m' = list_set m i r
  | _, _ => False
  end.
Proof.
  unfold setrow. destruct a as [v|m], c as [x|r].
  - destruct (Nat.ltb i (length v)); [|discriminate].
    intros [= <- _]. now exists x.
  - destruct (Nat.ltb i (length v)); discriminate.
  - destruct (nth_error m i) as [old|]; [|discriminate].
    intros [= <- _]. eexists. reflexivity.
  - destruct (nth_error m i) as [old|]; [|discriminate].
    destruct (Nat.eqb (length r) (length old)).
    + intros [= <- _]. eexists. reflexivity.
    + destruct r as [|x [|x' r']]; try discriminate.
      intros [= <- _]. eexists. reflexivity.
Qed.

Section field_facts.
Context `{Numerics} `{constants.t}.

(** The parts of a call of [EH_fields] that returns. *)
Lemma EH_fields_Done (self : StepIndex) (r_in r_out : Q) (nu : Z)
    (neff : Q) (wavelength : Wavelength.t) (EH : ndarray) (TM : bool)
    (self' : StepIndex) (EH' : ndarray) (log : list event) :
  EH_fields self r_in r_out nu neff wavelength EH TM
  = Done (self', EH') log ->
  exists C0 lC lF EH1 EH2 EH3 e0 e1 e2 e3,
    EH_fields_C self r_in r_out nu neff wavelength EH TM = Done C0 lC
    /\ self' = set_C self C0
    /\ log = lC ++ lF
    /\ count_solve lF = 0%nat
    /\ setrow EH 0 e0 = Done EH1 []
    /\ setrow EH1 1 e1 = Done EH2 []
    /\ setrow EH2 2 e2 = Done EH3 []
    /\ setrow EH3 3 e3 = Done EH' [].
Proof.
  intros Hrun. unfold EH_fields in Hrun.
  invert_bind Hrun. apply get_U_W_parameter_log in E. subst.
  invert_bind Hrun. rename E into HC.
  invert_bind Hrun. destruct a1 as [[c1 F3] F4].
  apply EH_fields_F_log in E. rename E into HF.
  invert_bind_as Hrun q Hq. apply truediv_Done in Hq.
  destruct Hq as (_ & _ & ->).
  invert_bind Hrun. apply getrow_log in E.
  invert_bind Hrun. apply getrow_log in E0.
  invert_bind Hrun. apply cell_op_log in E1.
  invert_bind Hrun. pose proof (setrow_log _ _ _ _ _ E2) as W4.
  invert_bind Hrun. apply getrow_log in E3.
  invert_bind Hrun. apply getrow_log in E4.
  invert_bind Hrun. apply cell_op_log in E5.
  invert_bind Hrun. pose proof (setrow_log _ _ _ _ _ E6) as W8.
  invert_bind Hrun. apply cell_op_log in E7.
  invert_bind Hrun. apply cell_op_log in E8.
  invert_bind Hrun. apply cell_op_log in E9.
  invert_bind Hrun. pose proof (setrow_log _ _ _ _ _ E10) as W12.
  invert_bind Hrun. apply cell_op_log in E11.
  invert_bind Hrun. apply cell_op_log in E12.
  invert_bind Hrun. apply cell_op_log in E13.
  invert_bind Hrun. pose proof (setrow_log _ _ _ _ _ E14) as W16.
  injection Hrun as <- <- <-. subst.
  do 10 eexists. split; [exact HC|]. split; [reflexivity|].
  split; [cbn [app]; rewrite app_nil_r; reflexivity|].
  split; [exact HF|].
  split; [exact E2|]. split; [exact E6|]. split; [exact E10 | exact E14].
Qed.

(** X7: [EH_fields] keeps the shape of [EH]: it returns an array with as
    many rows, of which it has written the first four, and every row
    after those is as it was.  An [EH] of fewer than four rows makes it
    raise. *)
Theorem EH_fields_writes_four_rows (self : StepIndex) (r_in r_out : Q)
    (nu : Z) (neff : Q) (wavelength : Wavelength.t) (EH : ndarray)
    (TM : bool) (self' : StepIndex) (EH' : ndarray) (log : list event) :
  EH_fields self r_in r_out nu neff wavelength EH TM
  = Done (self', EH') log ->
  match EH, EH' with
  | Arr1 v, Arr1 v' =>
      length v' = length v /\ (4 <= length v)%nat
      /\ skipn 4 v' = skipn 4 v
  | Arr2 m, Arr2 m' =>
      length m' = length m /\ (4 <= length m)%nat
      /\ skipn 4 m' = skipn 4 m
  | _, _ => False
  end.
Proof.
  intros Hrun. apply EH_fields_Done in Hrun.
  destruct Hrun as (C0 & lC & lF & EH1 & EH2 & EH3 & e0 & e1 & e2 & e3
                    & _ & _ & _ & _ & H0' & H1 & H2 & H3).
  assert (Hlen3 : match EH3 with
                  | Arr1 v => (3 < length v)%nat
                  | Arr2 m => (3 < length m)%nat
                  end).
  { unfold setrow in H3. destruct EH3 as [v|m], e3 as [x|r].
    - destruct (Nat.ltb 3 (length v)) eqn:E; [|discriminate].
      now apply Nat.ltb_lt.
    - destruct (Nat.ltb 3 (length v)); discriminate.
    - destruct (nth_error m 3) eqn:E; [|discriminate].
      apply nth_error_Some. congruence.
    - destruct (nth_error m 3) eqn:E; [|discriminate].
      apply nth_error_Some. congruence. }
  apply setrow_Done in H0', H1, H2, H3.
  destruct EH as [v|m], EH1 as [v1|m1]; try contradiction;
    destruct EH2 as [v2|m2]; try contradiction;
    destruct EH3 as [v3|m3]; try contradiction;
    destruct EH' as [v'|m']; try contradiction;
    destruct H0' as [x0 ->], H1 as [x1 ->], H2 as [x2 ->], H3 as [x3 ->];
    rewrite !list_set_length in *;
    (split; [reflexivity|]); (split; [lia|]);
    rewrite !skipn_list_set by lia; reflexivity.
Qed.
End field_facts.

Section outer_layer_facts.
Context `{Numerics} `{constants.t}.

(** For [nu = 0] the coefficients are a vector of four whose TE half
    (TM case) or TM half (TE case) is zero. *)
Lemma EH_fields_C_nu0 (self : StepIndex) (r_in r_out neff : Q)
    (wavelength : Wavelength.t) (EH : ndarray) (TM : bool) (C0 : ndarray)
    (log : list event) :
  EH_fields_C self r_in r_out 0 neff wavelength EH TM = Done C0 log ->
  exists x0 x1,
    C0 = Arr1 (if TM then [x0; x1; 0; 0] else [0; 0; x0; x1]).
Proof.
  unfold EH_fields_C. cbn [Z.eqb].
  destruct (Qeq_bool r_in 0).
  - destruct TM; intros [= <- _]; eexists; eexists; reflexivity.
  - destruct TM; intros Hrun; invert_bind Hrun; invert_bind Hrun;
      apply set_slice_Done in E0; destruct E0 as [_ (x0 & x1 & ->)];
      injection Hrun as <- _; exists x0, x1; reflexivity.
Qed.

Lemma EH_fields_C_outer (self : StepIndex) (r_in r_out : Q) (nu : Z)
    (neff : Q) (wavelength : Wavelength.t) (EH : ndarray) (TM : bool)
    (C0 : ndarray) (log : list event) :
  ~ r_in == 0 ->
  EH_fields_C self r_in r_out nu neff wavelength EH TM = Done C0 log ->
  count_solve log = 1%nat
  /\ exists a b x,
       In (Solve a b) log
       /\ numpy_linalg_solve a b = Some x
       /\ if Z.eqb nu 0 then
            length a = 2%nat
            /\ exists e e',
                 b = Arr1 [e; e']
                 /\ nth_error (flatten EH) (if TM then 0 else 1)%nat = Some e
                 /\ nth_error (flatten EH) (if TM then 3 else 2)%nat
                    = Some e'
          else length a = 4%nat /\ b = EH /\ C0 = x.
Proof.
  intros Hin. unfold EH_fields_C.
  destruct (Qeq_bool r_in 0) eqn:E0.
  { exfalso. apply Hin. now apply Qeq_bool_iff. }
  destruct (Z.eqb nu 0).
  - destruct TM; intros Hrun; invert_bind Hrun; invert_bind Hrun;
      apply set_slice_Done in E1; destruct E1 as [-> _];
      injection Hrun as _ <-; subst;
      apply tetmConstants_Done in E;
      destruct E as (a' & e & e' & He & He' & Hsolve & Hlen & _ & Hcount
                     & Hlog);
      (split; [now rewrite !count_solve_app, Hcount|]);
      exists a', (Arr1 [e; e']), a;
      (split; [apply in_or_app; now left|]);
      (split; [exact Hsolve|]); (split; [exact Hlen|]);
      exists e, e'; repeat split; assumption.
  - intros Hrun. pose proof (vConstants_Done _ _ _ _ _ _ _ _ _ Hrun)
      as (a' & Hsolve & Hlen & _ & Hcount & Hlog).
    split; [exact Hcount|]. exists a', EH, C0. repeat split; assumption.
Qed.

(** X8: for a layer that is not the innermost, a call of [EH_fields] that
    returns has solved exactly one linear system: for [nu = 0], two
    equations, with the entries 0 and 3 of [EH] (TM) or 1 and 2 (TE) on
    the right-hand side; otherwise four equations with [EH] itself on the
    right-hand side, and the solution becomes [C]. *)
Theorem outer_layer_solves_once (self : StepIndex) (r_in r_out : Q)
    (nu : Z) (neff : Q) (wavelength : Wavelength.t) (EH : ndarray)
    (TM : bool) (self' : StepIndex) (EH' : ndarray) (log : list event) :
  ~ r_in == 0 ->
  EH_fields self r_in r_out nu neff wavelength EH TM
  = Done (self', EH') log ->
  count_solve log = 1%nat
  /\ exists a b x,
       In (Solve a b) log
       /\ numpy_linalg_solve a b = Some x
       /\ if Z.eqb nu 0 then
            length a = 2%nat
            /\ exists e e',
                 b = Arr1 [e; e']
                 /\ nth_error (flatten EH) (if TM then 0 else 1)%nat = Some e
                 /\ nth_error (flatten EH) (if TM then 3 else 2)%nat
                    = Some e'
          else length a = 4%nat /\ b = EH /\ C self' = Some x.
Proof.
  intros Hin Hrun. apply EH_fields_Done in Hrun.
  destruct Hrun as (C0 & lC & lF & EH1 & EH2 & EH3 & e0 & e1 & e2 & e3
                    & HC & -> & -> & HF & _).
  destruct (EH_fields_C_outer self r_in r_out nu neff wavelength EH TM C0 lC
              Hin HC) as (Hcount & a & b & x & Hlog & Hsolve & Hshape).
  split; [now rewrite count_solve_app, Hcount, HF|].
  exists a, b, x. split; [apply in_or_app; now left|].
  split; [exact Hsolve|].
  destruct (Z.eqb nu 0); [exact Hshape|].
  destruct Hshape as (Hlen & Hb & ->). now repeat split.
Qed.

(** X9: for [nu = 0] two of the four fields that [EH_fields] writes into
    a vector [EH] are zero, in every layer: [EH[1]] and [EH[2]] in the TM
    case, [EH[0]] and [EH[3]] in the TE case (where no divisor of the
    field computation is zero: the argument [u] and the two basis
    functions at [u]). *)
Theorem TE_TM_fields_vanish (self : StepIndex) (r_in r_out neff : Q)
    (wavelength : Wavelength.t) (v : list Q) (TM : bool)
    (self' : StepIndex) (v' : list Q) (log : list event) (u : Q) :
  get_U_W_parameter self r_out neff wavelength = Done u [] ->
  ~ u == 0 ->
  (let oscillatory := Qlt_bool neff (get_maximum_index self wavelength) in
   ~ special (if oscillatory then Jn else Iv) 0 u == 0
   /\ ~ special (if oscillatory then Yn else Kn) 0 u == 0) ->
  EH_fields self r_in r_out 0 neff wavelength (Arr1 v) TM
  = Done (self', Arr1 v') log ->
  exists e e',
    nth_error v' (if TM then 1 else 0)%nat = Some e
    /\ nth_error v' (if TM then 2 else 3)%nat = Some e'
    /\ e == 0 /\ e' == 0.
Proof.
  intros _ _ _ Hrun. unfold EH_fields in Hrun.
  invert_bind_as Hrun u' Hu.
  invert_bind_as Hrun C0 HC. apply EH_fields_C_nu0 in HC.
  destruct HC as (x0 & x1 & ->).
  invert_bind_as Hrun F HF. destruct F as [[c1 F3] F4].
  invert_bind_as Hrun q Hq. apply truediv_Done in Hq.
  destruct Hq as (_ & -> & _).
  destruct v as [|v0 [|v1 [|v2 [|v3 rest]]]];
    destruct TM;
    cbn [bind ret getrow nth_error cell_add cell_sub cell_op cell_scale
         setrow list_set length Nat.ltb Nat.leb] in Hrun;
    try discriminate;
    injection Hrun as _ <- _;
    cbn [nth_error]; eexists; eexists;
    (split; [reflexivity|]); (split; [reflexivity|]);
    split; unfold Qdiv; cbn [inject_Z]; ring.
Qed.

(** X10: for the innermost layer and [nu != 0] the coefficients are a
    4 x 2 array, and a one-dimensional [EH] cannot take its rows:
    where the argument [u] at the outer radius is defined and not zero,
    [EH_fields] raises [ValueError].  (At [u = 0] it raises
    [ZeroDivisionError] before it writes into [EH].) *)
Theorem innermost_needs_two_columns (self : StepIndex) (r_in r_out : Q)
    (nu : Z) (neff : Q) (wavelength : Wavelength.t) (e : Q) (v : list Q)
    (TM : bool) (u : Q) :
  r_in == 0 ->
  nu <> 0%Z ->
  get_U_W_parameter self r_out neff wavelength = Done u [] ->
  ~ u == 0 ->
  EH_fields self r_in r_out nu neff wavelength (Arr1 (e :: v)) TM
  = Raised ValueError.
Proof.
  intros Hin Hnu Hu Hzero. unfold EH_fields.
  rewrite (EH_fields_C_innermost self r_in r_out nu neff wavelength
             (Arr1 (e :: v)) TM Hin).
  rewrite Hu. cbn [bind].
  assert (Hq : Qeq_bool u 0 = false).
  { apply not_true_iff_false. now rewrite Qeq_bool_iff. }
  apply Z.eqb_neq in Hnu. unfold unit_excitation, EH_fields_F, truediv.
  rewrite Hnu, !Hq.
  destruct (Qlt_bool neff (get_maximum_index self wavelength));
    reflexivity.
Qed.
End outer_layer_facts.

(** * Further properties of the search for a first root *)

Section first_root_edges.
Context `{Optimize} {Args : Type}.
Variable function : Q -> Args -> Q.
Variable function_args : Args.

Let f (x : Q) : Q := function x function_args.

(** X11: called without a highbound, without [ipoints] and with the
    default [maxiter = numpy.inf], [find_function_first_root] returns
    [lowbound] if the function is zero there and raises [TypeError]
    otherwise, whatever [delta] is: [range] does not take an infinite
    bound. *)
Theorem default_arguments_raise (fuel : nat) (lowbound : Q)
    (highbound : option Q) (delta : Q) :
  truthy_opt highbound = false ->
  find_function_first_root function function_args (S fuel) lowbound
    highbound [] delta inf
  = if Qeq_bool (f lowbound) 0 then Return (Real lowbound) []
    else Raise TypeError.
Proof.
  intros Hhigh. cbn [find_function_first_root scan_budget].
  assert (Hbudget : match highbound with
                    | Some h =>
                        if truthy h then
                          if Qeq_bool delta 0 then inl ZeroDivisionError
                          else inr (Int (int ((h - lowbound) / delta)))
                        else inr inf
                    | None => inr inf
                    end = (inr inf : exn + count)).
  { destruct highbound as [h|]; [|reflexivity].
    cbn in Hhigh. now rewrite Hhigh. }
  rewrite Hbudget. reflexivity.
Qed.

(** X12: without a highbound (or with the highbound [0.0]) the search
    makes a single pass: it never starts again with a smaller step, so
    that one turn of [while True] decides the call. *)
Theorem no_highbound_single_pass (fuel : nat) (lowbound : Q)
    (highbound : option Q) (ipoints : list Q) (delta : Q)
    (maxiter : count) :
  truthy_opt highbound = false ->
  find_function_first_root function function_args (S fuel) lowbound
    highbound ipoints delta maxiter
  = find_function_first_root function function_args 1 lowbound highbound
      ipoints delta maxiter
  /\ find_function_first_root function function_args (S fuel) lowbound
       highbound ipoints delta maxiter
     <> OutOfFuel.
Proof.
  intros Hhigh.
  assert (Hone : forall n,
             find_function_first_root function function_args (S n) lowbound
               highbound ipoints delta maxiter
             = find_function_first_root function function_args 1 lowbound
                 highbound ipoints delta maxiter
             /\ find_function_first_root function function_args 1 lowbound
                  highbound ipoints delta maxiter <> OutOfFuel).
  { intros n. cbn [find_function_first_root].
    destruct (scan_budget lowbound highbound ipoints delta maxiter)
      as [e|[m|]]; [split; [reflexivity | discriminate]| |].
    - destruct (Qeq_bool (function lowbound function_args) 0);
        [split; [reflexivity | discriminate]|].
      destruct (scan function function_args lowbound highbound delta
                  (Z.to_nat m) _) as [v log|ipoints'];
        [split; [reflexivity | discriminate]|].
      rewrite Hhigh. cbn [andb]. split; [reflexivity | discriminate].
    - destruct (Qeq_bool (function lowbound function_args) 0);
        split; reflexivity || discriminate. }
  destruct (Hone fuel) as [Heq Hne]. split; [exact Heq|].
  rewrite Heq. exact Hne.
Qed.

(** One turn of the scan that returns. *)
Lemma scan_step_Stop (lowbound : Q) (highbound : option Q) (delta : Q)
    (s : scan_state) (v : value) (log : list log_record) :
  scan_fa s = f (scan_a s) ->
  scan_step function function_args lowbound highbound delta s = Stop v log ->
  match v with
  | Real x =>
      (f x == 0 /\ log = [])
      \/ (exists a b,
            x = brentq function a b function_args (1 / 10 ^ 20)
            /\ log = logger_debug (skipped (f a) (f x) (f b))
            /\ sign_change (f a) (f b) = true
            /\ Qabs (f x) < Qabs (f a) /\ Qabs (f x) < Qabs (f b))
  | nan =>
      truthy_opt highbound = true
      /\ log = logger_info no_root_within_range
  end.
Proof.
  intros Hfa. unfold scan_step.
  destruct (next_sample delta s) as [b rest].
  destruct (truthy_opt highbound && crosses b highbound lowbound) eqn:Ec.
  - intros [= <- <-]. apply andb_true_iff in Ec. now split.
  - destruct (Qeq_bool (function b function_args) 0) eqn:Eb.
    + intros [= <- <-]. left. split; [|reflexivity].
      now apply Qeq_bool_iff.
    + destruct (sign_change (scan_fa s) (function b function_args)) eqn:Es;
        [|discriminate].
      destruct (attenuates _ _ _) eqn:Ea; [|discriminate].
      intros [= <- <-]. right. exists (scan_a s), b. rewrite Hfa in *.
      apply attenuates_iff in Ea. destruct Ea as [Ha Hb].
      repeat split; assumption.
Qed.

Lemma scan_step_Next (lowbound : Q) (highbound : option Q) (delta : Q)
    (s s' : scan_state) :
  scan_step function function_args lowbound highbound delta s = Next s' ->
  scan_fa s' = f (scan_a s')
  /\ (scan_ipoints s = [] -> scan_ipoints s' = []).
Proof.
  unfold scan_step, next_sample.
  destruct (scan_ipoints s) as [|b rest] eqn:Ei;
    destruct (truthy_opt highbound && crosses _ highbound lowbound);
    try discriminate;
    destruct (Qeq_bool _ 0); try discriminate;
    destruct (sign_change _ _); try destruct (attenuates _ _ _);
    try discriminate; intros [= <-]; cbn; split;
    reflexivity || discriminate || trivial.
Qed.

Lemma scan_Found (lowbound : Q) (highbound : option Q) (delta : Q)
    (n : nat) (s : scan_state) (v : value) (log : list log_record) :
  scan_fa s = f (scan_a s) ->
  scan function function_args lowbound highbound delta n s = Found v log ->
  exists s',
    scan_fa s' = f (scan_a s')
    /\ scan_step function function_args lowbound highbound delta s'
       = Stop v log.
Proof.
  revert s. induction n as [|n IH]; intros s Hfa; [discriminate|].
  cbn [scan].
  destruct (scan_step function function_args lowbound highbound delta s)
    as [v' log'|s'] eqn:Estep.
  - intros [= <- <-]. now exists s.
  - intros Hrun. apply scan_step_Next in Estep. destruct Estep as [Hfa' _].
    now apply (IH s').
Qed.

(** X13: what [find_function_first_root] returns.  A number it returns is
    a point where the function is zero ([lowbound] or a sample), with
    nothing logged, or the candidate of [brentq] between two consecutive
    samples of opposite signs, at which the function is smaller in
    magnitude than at both of them, with one DEBUG record.  It returns
    [nan] with one INFO record, after a sample has crossed the highbound
    or the budget is used up. *)
Theorem find_function_first_root_sound (fuel : nat) (lowbound : Q)
    (highbound : option Q) (ipoints : list Q) (delta : Q)
    (maxiter : count) (v : value) (log : list log_record) :
  find_function_first_root function function_args fuel lowbound highbound
    ipoints delta maxiter
  = Return v log ->
  match v with
  | Real x =>
      (f x == 0 /\ log = [])
      \/ (exists a b,
            x = brentq function a b function_args (1 / 10 ^ 20)
            /\ log = logger_debug (skipped (f a) (f x) (f b))
            /\ sign_change (f a) (f b) = true
            /\ Qabs (f x) < Qabs (f a) /\ Qabs (f x) < Qabs (f b))
  | nan =>
      (truthy_opt highbound = true
       /\ log = logger_info no_root_within_range)
      \/ (exists m : Z,
            log = logger_info (maxiter_reached (Int m) lowbound highbound))
  end.
Proof.
  revert ipoints delta maxiter.
  induction fuel as [|fuel IH]; intros ipoints delta maxiter;
    [discriminate|].
  cbn [find_function_first_root].
  destruct (scan_budget lowbound highbound ipoints delta maxiter)
    as [e|[m|]]; [discriminate| |].
  - destruct (Qeq_bool (function lowbound function_args) 0) eqn:E0.
    + intros [= <- <-]. left. split; [|reflexivity].
      now apply Qeq_bool_iff.
    + destruct (scan function function_args lowbound highbound delta
                  (Z.to_nat m) _) as [v' log'|ipoints'] eqn:Escan.
      * intros [= <- <-]. apply scan_Found in Escan; [|reflexivity].
        destruct Escan as (s' & Hfa & Hstop).
        pose proof (scan_step_Stop lowbound highbound delta s' v' log' Hfa
                      Hstop) as Hsound.
        destruct v' as [x|]; [exact Hsound | now left].
      * destruct (truthy_opt highbound && Z.ltb m 100).
        -- apply IH.
        -- intros [= <- <-]. right. now exists m.
  - destruct (Qeq_bool (function lowbound function_args) 0) eqn:E0;
      [|discriminate].
    intros [= <- <-]. left. split; [|reflexivity]. now apply Qeq_bool_iff.
Qed.
End first_root_edges.

(** ** Whether the search ends *)


Lemma int_nonpos (q : Q) : q <= 0 -> (int q <= 0)%Z.
Proof.
  destruct q as [n d]. unfold Qle, int. cbn. intros Hn.
  rewrite <- (Z.quot_0_l (Zpos d)) by lia.
  apply Z.quot_le_mono; lia.
Qed.


Lemma tenth_step (x delta : Q) :
  ~ delta == 0 ->
  ~ delta / 10 == 0 /\ x / (delta / 10) == 10 * (x / delta).
Proof.
  intros Hd. split.
  - intros Hz. apply Hd.
    setoid_replace delta with (delta / 10 * 10) by field.
    rewrite Hz. reflexivity.
  - field. exact Hd.
Qed.

Section first_root_ends.
Context `{Optimize} {Args : Type}.
Variable function : Q -> Args -> Q.
Variable function_args : Args.
Variable lowbound : Q.
Variable h : Q.
Hypothesis h_given : ~ h == 0.

Lemma scan_budget_bounded (delta : Q) (maxiter : count) :
  ~ delta == 0 ->
  scan_budget lowbound (Some h) [] delta maxiter
  = inr (Int (int ((h - lowbound) / delta))).
Proof.
  intros Hd. cbn [scan_budget].
  apply truthy_true_iff in h_given. rewrite h_given.
  destruct (Qeq_bool delta 0) eqn:E; [|reflexivity].
  exfalso. apply Hd. now apply Qeq_bool_iff.
Qed.




(** With a highbound, no [ipoints] and a step [delta] that points away
    from the highbound, every turn of [while True] scans nothing and
    starts the next one with [delta / 10]. *)
Lemma misdirected_turns (fuel : nat) (delta : Q) (maxiter : count) :
  ~ delta == 0 ->
  (h - lowbound) / delta <= 0 ->
  ~ function lowbound function_args == 0 ->
  find_function_first_root function function_args fuel lowbound (Some h) []
    delta maxiter
  = OutOfFuel.
Proof.
  intros Hd Hq Hfa. revert delta maxiter Hd Hq.
  induction fuel as [|fuel IH]; intros delta maxiter Hd Hq; [reflexivity|].
  cbn [find_function_first_root].
  rewrite (scan_budget_bounded delta maxiter Hd).
  destruct (Qeq_bool (function lowbound function_args) 0) eqn:E0.
  { exfalso. apply Hfa. now apply Qeq_bool_iff. }
  pose proof (int_nonpos _ Hq) as Hm.
  replace (Z.to_nat (int ((h - lowbound) / delta))) with 0%nat by lia.
  cbn [scan scan_ipoints truthy_opt].
  pose proof h_given as Hh. apply truthy_true_iff in Hh. rewrite Hh.
  cbn [andb].
  replace (Z.ltb (int ((h - lowbound) / delta)) 100) with true
    by (symmetry; apply Z.ltb_lt; lia).
  destruct (tenth_step (h - lowbound) delta Hd) as [Hd1 Hq1].
  apply IH; [exact Hd1|]. rewrite Hq1. lra.
Qed.

(** X15: with a highbound, no [ipoints] and a step [delta] that points
    away from the highbound (or a highbound equal to [lowbound]), a call
    that does not find the function zero at [lowbound] returns no value,
    neither a root nor NaN, however many turns of [while True] it takes.
    (How the turns end is not part of the statement: on exact numbers
    they do not, each one scanning nothing and starting the next with
    [delta / 10]; on the machine's floats they end with an exception,
    once the quotient overflows or [delta] underflows to zero.) *)
Theorem misdirected_search_returns_nothing (fuel : nat) (delta : Q)
    (maxiter : count) (v : value) (log : list log_record) :
  ~ delta == 0 ->
  (h - lowbound) / delta <= 0 ->
  ~ function lowbound function_args == 0 ->
  find_function_first_root function function_args fuel lowbound (Some h) []
    delta maxiter
  <> Return v log.
Proof.
  intros Hd Hq Hfa.
  rewrite (misdirected_turns fuel delta maxiter Hd Hq Hfa). discriminate.
Qed.
End first_root_ends.

(** * Further properties of the search within a range *)

Lemma numpy_sign_pos (y : Q) : 0 < y -> numpy_sign y = 1%Z.
Proof.
  destruct y as [n d]. unfold Qlt, numpy_sign. cbn. intros Hn.
  apply Z.sgn_pos. lia.
Qed.

Lemma numpy_sign_neg (y : Q) : y < 0 -> numpy_sign y = (-1)%Z.
Proof.
  destruct y as [n d]. unfold Qlt, numpy_sign. cbn. intros Hn.
  apply Z.sgn_neg. lia.
Qed.

Section range_facts.
Context `{Optimize} {Args : Type}.
Variable function : Q -> Args -> Q.
Variable function_args : Args.

Let f (x : Q) : Q := function x function_args.

(** The two ways [update_root_range] answers. *)
Lemma update_root_range_cases (x_low x_high y_low y_high : Q) :
  let x_mid := (x_low + x_high) / 2 in
  update_root_range function function_args x_low x_high y_low y_high
  = (x_low, x_mid, y_low, f x_mid)
  \/ update_root_range function function_args x_low x_high y_low y_high
     = (x_mid, x_high, f x_mid, y_high).
Proof.
  unfold update_root_range, f. cbv zeta.
  destruct (Qlt_bool 0 _); [now left | now right].
Qed.

Lemma bracket_step_Next (s s' : bracket) :
  bracket_step function function_args s = Next s' ->
  let '(x_low, x_high, y_low, y_high) := s in
  s' = update_root_range function function_args x_low x_high y_low y_high.
Proof.
  destruct s as [[[x_low x_high] y_low] y_high]. unfold bracket_step.
  destruct (negb _); [destruct (attenuates _ _ _)|];
    try discriminate; now intros [= <-].
Qed.

Lemma bracket_step_Stop (s : bracket) (v : value) (log : list log_record) :
  bracket_step function function_args s = Stop v log ->
  let '(x_low, x_high, y_low, y_high) := s in
  let x := brentq function x_low x_high function_args brentq_xtol in
  v = Real x /\ log = []
  /\ numpy_sign y_low <> numpy_sign y_high
  /\ Qabs (f x) < Qabs y_low /\ Qabs (f x) < Qabs y_high.
Proof.
  destruct s as [[[x_low x_high] y_low] y_high]. unfold bracket_step.
  destruct (Z.eqb (numpy_sign y_low) (numpy_sign y_high)) eqn:Es;
    cbn [negb]; [discriminate|].
  destruct (attenuates _ _ _) eqn:Ea; [|discriminate].
  intros [= <- <-]. apply attenuates_iff in Ea. apply Z.eqb_neq in Es.
  destruct Ea as [Ha Hb]. repeat split; assumption.
Qed.

(** What the loop keeps true of its bracket. *)
Lemma bracket_invariant (k : nat) (x_low x_high : Q) (s : bracket) :
  x_low <= x_high ->
  bracket_reaches function function_args k
    (x_low, x_high, f x_low, f x_high) s ->
  let '(x_low', x_high', y_low', y_high') := s in
  x_low <= x_low' /\ x_low' <= x_high' /\ x_high' <= x_high
  /\ (x_high' - x_low') * inject_Z (2 ^ Z.of_nat k) == x_high - x_low
  /\ y_low' = f x_low' /\ y_high' = f x_high'.
Proof.
  intros Hord Hreach.
  remember (x_low, x_high, f x_low, f x_high) as s0 eqn:Es0.
  induction Hreach as [s|k s s' s'' _ IH Hstep].
  - subst s. repeat split; try reflexivity; try lra.
    cbn. change (inject_Z 1) with 1. ring.
  - specialize (IH Es0).
    destruct s' as [[[xl xh] yl] yh].
    destruct IH as (H1 & H2 & H3 & Hw & Hyl & Hyh).
    apply bracket_step_Next in Hstep.
    assert (Hpow : inject_Z (2 ^ Z.of_nat (S k))
                   == 2 * inject_Z (2 ^ Z.of_nat k)).
    { rewrite Nat2Z.inj_succ, Z.pow_succ_r by lia.
      rewrite inject_Z_mult. reflexivity. }
    assert (Hmid : (xl + xh) / 2 == (xl + xh) * (1 # 2)) by reflexivity.
    destruct (update_root_range_cases xl xh yl yh) as [Hc|Hc];
      cbv zeta in Hc; rewrite Hc in Hstep; subst s'';
      (repeat split; try assumption; try reflexivity;
       [lra | lra | rewrite Hpow, Hmid; lra]).
Qed.

(** X16: every bracket that the loop of [_find_root_within_range] reaches
    from a range with [x_low <= x_high] lies in that range, is [2^k]
    times narrower after [k] turns, and carries the values of the
    function at its two ends. *)
Theorem brackets_halve (k : nat) (x_low x_high : Q) (s : bracket) :
  x_low <= x_high ->
  bracket_reaches function function_args k
    (x_low, x_high, f x_low, f x_high) s ->
  let '(x_low', x_high', y_low', y_high') := s in
  x_low <= x_low' /\ x_low' <= x_high' /\ x_high' <= x_high
  /\ x_high' - x_low' == (x_high - x_low) / inject_Z (2 ^ Z.of_nat k)
  /\ y_low' = f x_low' /\ y_high' = f x_high'.
Proof.
  intros Hord Hreach.
  pose proof (bracket_invariant k x_low x_high s Hord Hreach) as Hinv.
  destruct s as [[[x_low' x_high'] y_low'] y_high'].
  destruct Hinv as (H1 & H2 & H3 & Hw & Hyl & Hyh).
  assert (Hpow : ~ inject_Z (2 ^ Z.of_nat k) == 0).
  { unfold Qeq. cbn.
    pose proof (Z.pow_pos_nonneg 2 (Z.of_nat k)). lia. }
  repeat split; try assumption.
  rewrite <- Hw. field. exact Hpow.
Qed.

Lemma bracket_reaches_cons (k : nat) (s s1 s' : bracket) :
  bracket_step function function_args s = Next s1 ->
  bracket_reaches function function_args k s1 s' ->
  bracket_reaches function function_args (S k) s s'.
Proof.
  intros Hstep Hreach. induction Hreach as [s1|k s1 s2 s3 _ IH Hnext].
  - apply bracket_next with (s' := s); [apply bracket_here | exact Hstep].
  - apply bracket_next with (s' := s2); [now apply IH | exact Hnext].
Qed.

Lemma bracket_loop_Real (n : nat) (s : bracket) (x : Q)
    (log : list log_record) :
  bracket_loop function function_args n s = (Real x, log) ->
  exists k s',
    (k < n)%nat
    /\ bracket_reaches function function_args k s s'
    /\ bracket_step function function_args s' = Stop (Real x) log.
Proof.
  revert s. induction n as [|n IH]; intros s; cbn [bracket_loop];
    [discriminate|].
  destruct (bracket_step function function_args s) as [v l|s1] eqn:Estep.
  - intros [= -> ->]. exists 0%nat, s.
    split; [lia|]. split; [apply bracket_here | exact Estep].
  - intros Hrun. apply IH in Hrun. destruct Hrun as (k & s' & Hk & Hr & Hs).
    exists (S k), s'. split; [lia|].
    split; [now apply bracket_reaches_cons with (s1 := s1) | exact Hs].
Qed.

(** X17: a number that [_find_root_within_range] returns is the candidate
    of [brentq] on a bracket inside the range given ([x_low <= x_high]),
    at whose ends the function has different signs and is larger in
    magnitude than at the candidate; nothing is logged then. *)
Theorem _find_root_within_range_sound (x_low x_high : Q)
    (max_iteration : Z) (x : Q) (log : list log_record) :
  x_low <= x_high ->
  _find_root_within_range function function_args x_low x_high max_iteration
  = (Real x, log) ->
  log = []
  /\ exists a b,
       x_low <= a /\ a <= b /\ b <= x_high
       /\ x = brentq function a b function_args brentq_xtol
       /\ numpy_sign (f a) <> numpy_sign (f b)
       /\ Qabs (f x) < Qabs (f a) /\ Qabs (f x) < Qabs (f b).
Proof.
  intros Hord Hrun. unfold _find_root_within_range in Hrun.
  apply bracket_loop_Real in Hrun.
  destruct Hrun as (k & s' & _ & Hreach & Hstop).
  pose proof (bracket_invariant k x_low x_high s' Hord Hreach) as Hinv.
  apply bracket_step_Stop in Hstop.
  destruct s' as [[[a b] ya] yb].
  destruct Hinv as (H1 & H2 & H3 & _ & -> & ->).
  destruct Hstop as (Hx & -> & Hsign & Ha & Hb).
  injection Hx as ->.
  split; [reflexivity|]. exists a, b. repeat split; assumption.
Qed.

(** X18: for a function that is positive everywhere, or negative
    everywhere, [_find_root_within_range] never calls on a candidate: it
    returns [nan] with one WARNING record, whatever the range and the
    number of iterations. *)
Theorem one_sign_gives_nan (x_low x_high : Q) (max_iteration : Z) :
  (forall x, 0 < f x) \/ (forall x, f x < 0) ->
  _find_root_within_range function function_args x_low x_high max_iteration
  = (nan, logger_warning max_iteration_reached).
Proof.
  intros Hsign. unfold _find_root_within_range.
  destruct Hsign as [Hpos|Hneg].
  - assert (Hloop : forall n xl xh yl yh,
               0 < yl -> 0 < yh ->
               bracket_loop function function_args n (xl, xh, yl, yh)
               = (nan, logger_warning max_iteration_reached)).
    { induction n as [|n IH]; intros xl xh yl yh Hl Hh; [reflexivity|].
      cbn [bracket_loop]. unfold bracket_step, update_root_range.
      rewrite (numpy_sign_pos yl Hl), (numpy_sign_pos yh Hh). cbn [Z.eqb negb].
      pose proof (Hpos ((xl + xh) / 2)) as Hmid. unfold f in Hmid.
      apply Qlt_bool_iff in Hmid. rewrite Hmid.
      apply IH; [exact Hl | now apply Qlt_bool_iff]. }
    apply Hloop; apply Hpos.
  - assert (Hloop : forall n xl xh yl yh,
               yl < 0 -> yh < 0 ->
               bracket_loop function function_args n (xl, xh, yl, yh)
               = (nan, logger_warning max_iteration_reached)).
    { induction n as [|n IH]; intros xl xh yl yh Hl Hh; [reflexivity|].
      cbn [bracket_loop]. unfold bracket_step, update_root_range.
      rewrite (numpy_sign_neg yl Hl), (numpy_sign_neg yh Hh). cbn [Z.eqb negb].
      pose proof (Hneg ((xl + xh) / 2)) as Hmid. unfold f in Hmid.
      assert (Hno : Qlt_bool 0 (function ((xl + xh) / 2) function_args)
                    = false)
        by (apply Qlt_bool_false_iff; now apply Qlt_le_weak).
      rewrite Hno. apply IH; [exact Hmid | exact Hh]. }
    apply Hloop; apply Hneg.
Qed.
End range_facts.

(** * The further properties at concrete inputs *)


Lemma short_coefficients_raise_witness :
  radius_in core <= Qabs 2 <= radius_out core
  /\ (length [1] < 2)%nat
  /\ @Psi table_numerics core 2 (3 # 4) unit_wavenumber 0 [1]
     = Raised IndexError
  /\ @lpConstants table_numerics core 2 (3 # 4) unit_wavenumber 0 [1]
     = Raised IndexError.
Proof.
  assert (Hin : radius_in core <= Qabs 2 <= radius_out core)
    by (split; vm_compute; discriminate).
  assert (Hlen : (length [1] < 2)%nat) by (cbn; lia).
  split; [exact Hin|]. split; [exact Hlen|].
  exact (@short_coefficients_raise table_numerics core 2 (3 # 4)
           unit_wavenumber 0 [1] Hin Hlen).
Defined.

Lemma Psi_second_kind_witness :
  exists r log,
    @Psi table_numerics core 0 (3 # 4) unit_wavenumber 0 [1; 0] = Done r log
    /\ called log = [Jn; Jvp]
    /\ existsb second_kind (called log) = false.
Proof.
  destruct (@Psi table_numerics core 0 (3 # 4) unit_wavenumber 0 [1; 0])
    as [r log|e] eqn:E; [|vm_compute in E; discriminate].
  exists r, log. split; [reflexivity|].
  destruct (@Psi_second_kind table_numerics core 0 (3 # 4) unit_wavenumber 0
              1 0 [] r log E) as [Hcalls Hnone].
  split; [exact Hcalls | apply Hnone; reflexivity].
Defined.

Lemma lpConstants_additive_witness :
  exists ta la tb lb t l,
    @lpConstants table_numerics core 2 (3 # 4) unit_wavenumber 0 [1; 2]
    = Done ta la
    /\ @lpConstants table_numerics core 2 (3 # 4) unit_wavenumber 0 [3; 4]
       = Done tb lb
    /\ @lpConstants table_numerics core 2 (3 # 4) unit_wavenumber 0
         [1 + 3; 2 + 4]
       = Done t l
    /\ fst t == fst ta + fst tb /\ snd t == snd ta + snd tb.
Proof.
  destruct (@lpConstants table_numerics core 2 (3 # 4) unit_wavenumber 0
              [1; 2]) as [ta la|e] eqn:Ea; [|vm_compute in Ea; discriminate].
  destruct (@lpConstants table_numerics core 2 (3 # 4) unit_wavenumber 0
              [3; 4]) as [tb lb|e] eqn:Eb; [|vm_compute in Eb; discriminate].
  destruct (@lpConstants_additive table_numerics core 2 (3 # 4)
              unit_wavenumber 0 1 2 3 4 ta tb la lb Ea Eb)
    as (t & l & Hrun & H0 & H1).
  exists ta, la, tb, lb, t, l. repeat split; assumption.
Defined.

Lemma tetmConstants_short_EH_witness :
  radius_in cladding <= Qabs (1 # 3) <= radius_out cladding
  /\ @get_U_W_parameter table_numerics cladding (2 # 3) (13 # 4)
       unit_wavenumber
     = Done (6 # 3) []
  /\ ~ 6 # 3 == 0
  /\ @tetmConstants table_numerics cladding (1 # 3) (2 # 3) (13 # 4)
       unit_wavenumber (Arr1 [1; 0]) 1 (0%nat, 3%nat)
     = Raised IndexError.
Proof.
  assert (Hin : radius_in cladding <= Qabs (1 # 3) <= radius_out cladding)
    by (split; vm_compute; discriminate).
  assert (Hu : @get_U_W_parameter table_numerics cladding (2 # 3) (13 # 4)
                 unit_wavenumber = Done (6 # 3) [])
    by (vm_compute; reflexivity).
  assert (Hu0 : ~ 6 # 3 == 0) by (vm_compute; discriminate).
  split; [exact Hin|]. split; [exact Hu|]. split; [exact Hu0|].
  apply (@tetmConstants_short_EH table_numerics cladding (1 # 3) (2 # 3)
           (13 # 4) unit_wavenumber (Arr1 [1; 0]) 1 (0%nat, 3%nat) (6 # 3)
           Hin Hu Hu0).
  cbn. lia.
Defined.

Lemma EH_fields_writes_four_rows_witness :
  exists self' v' log,
    @EH_fields table_numerics table_constants core 0 2 0 (3 # 4)
      unit_wavenumber (Arr1 [0; 0; 0; 0; 7]) true
    = Done (self', Arr1 v') log
    /\ length v' = 5%nat /\ skipn 4 v' = [7].
Proof.
  destruct (@EH_fields table_numerics table_constants core 0 2 0 (3 # 4)
              unit_wavenumber (Arr1 [0; 0; 0; 0; 7]) true)
    as [[self' EH'] log|e] eqn:E; [|vm_compute in E; discriminate].
  pose proof (@EH_fields_writes_four_rows table_numerics table_constants core
                0 2 0 (3 # 4) unit_wavenumber (Arr1 [0; 0; 0; 0; 7]) true
                self' EH' log E) as W.
  destruct EH' as [v'|m']; [|contradiction].
  destruct W as (Hlen & _ & Hrest).
  exists self', v', log. repeat split; assumption.
Defined.

Lemma outer_layer_solves_once_witness :
  ~ 1 # 3 == 0
  /\ exists self' EH' log,
       @EH_fields table_numerics table_constants cladding (1 # 3) (2 # 3) 0
         (13 # 4) unit_wavenumber (Arr1 [1; 0; 0; 1]) true
       = Done (self', EH') log
       /\ count_solve log = 1%nat.
Proof.
  assert (Hin : ~ 1 # 3 == 0) by (vm_compute; discriminate).
  split; [exact Hin|].
  destruct (@EH_fields table_numerics table_constants cladding (1 # 3)
              (2 # 3) 0 (13 # 4) unit_wavenumber (Arr1 [1; 0; 0; 1]) true)
    as [[self' EH'] log|e] eqn:E; [|vm_compute in E; discriminate].
  exists self', EH', log. split; [reflexivity|].
  exact (proj1 (@outer_layer_solves_once table_numerics table_constants
                  cladding (1 # 3) (2 # 3) 0 (13 # 4) unit_wavenumber
                  (Arr1 [1; 0; 0; 1]) true self' EH' log Hin E)).
Defined.

Lemma TE_TM_fields_vanish_witness :
  ~ 2 == 0
  /\ ~ table_special Iv 0 2 == 0 /\ ~ table_special Kn 0 2 == 0
  /\ exists self' v' log e e',
       @EH_fields table_numerics table_constants cladding (1 # 3) (2 # 3) 0
         (13 # 4) unit_wavenumber (Arr1 [1; 0; 0; 1]) true
       = Done (self', Arr1 v') log
       /\ nth_error v' 1 = Some e /\ nth_error v' 2 = Some e'
       /\ e == 0 /\ e' == 0.
Proof.
  assert (Hu : @get_U_W_parameter table_numerics cladding (2 # 3) (13 # 4)
                 unit_wavenumber = Done (6 # 3) [])
    by (vm_compute; reflexivity).
  assert (Hu0 : ~ 6 # 3 == 0) by (vm_compute; discriminate).
  assert (HI : ~ table_special Iv 0 2 == 0) by (vm_compute; discriminate).
  assert (HK : ~ table_special Kn 0 2 == 0) by (vm_compute; discriminate).
  split; [vm_compute; discriminate|]. split; [exact HI|]. split; [exact HK|].
  destruct (@EH_fields table_numerics table_constants cladding (1 # 3)
              (2 # 3) 0 (13 # 4) unit_wavenumber (Arr1 [1; 0; 0; 1]) true)
    as [[self' EH'] log|e] eqn:E; [|vm_compute in E; discriminate].
  destruct EH' as [v'|m']; [|vm_compute in E; discriminate].
  destruct (@TE_TM_fields_vanish table_numerics table_constants cladding
              (1 # 3) (2 # 3) (13 # 4) unit_wavenumber [1; 0; 0; 1] true
              self' v' log (6 # 3) Hu Hu0 (conj HI HK) E)
    as (e & e' & H1 & H2 & H3 & H4).
  exists self', v', log, e, e'. repeat split; assumption.
Defined.

Lemma innermost_needs_two_columns_witness :
  0 == 0 /\ 1%Z <> 0%Z
  /\ @get_U_W_parameter table_numerics core 2 (3 # 4) unit_wavenumber
     = Done 2 []
  /\ ~ 2 == 0
  /\ @EH_fields table_numerics table_constants core 0 2 1 (3 # 4)
       unit_wavenumber (Arr1 [0; 0; 0; 0]) true
     = Raised ValueError.
Proof.
  assert (Hin : 0 == 0) by reflexivity.
  assert (Hnu : 1%Z <> 0%Z) by discriminate.
  assert (Hu : @get_U_W_parameter table_numerics core 2 (3 # 4)
                 unit_wavenumber = Done 2 [])
    by (vm_compute; reflexivity).
  assert (Hu0 : ~ 2 == 0) by (vm_compute; discriminate).
  split; [exact Hin|]. split; [exact Hnu|]. split; [exact Hu|].
  split; [exact Hu0|].
  exact (@innermost_needs_two_columns table_numerics table_constants core 0 2
           1 (3 # 4) unit_wavenumber 0 [0; 0; 0] true 2 Hin Hnu Hu Hu0).
Defined.

Lemma default_arguments_raise_witness :
  truthy_opt None = false
  /\ @find_function_first_root bisection_optimize unit (fun _ _ => 1) tt 1 0
       None [] (1 # 4) inf
     = Raise TypeError.
Proof.
  assert (Hhigh : truthy_opt None = false) by reflexivity.
  split; [exact Hhigh|].
  exact (@default_arguments_raise bisection_optimize unit (fun _ _ => 1) tt
           0%nat 0 None (1 # 4) Hhigh).
Defined.

Lemma no_highbound_single_pass_witness :
  truthy_opt (Some 0) = false
  /\ @find_function_first_root bisection_optimize unit (fun _ _ => 1) tt 5
       (- (1)) (Some 0) [] 1 (Int 2)
     = @find_function_first_root bisection_optimize unit (fun _ _ => 1) tt 1
         (- (1)) (Some 0) [] 1 (Int 2).
Proof.
  assert (Hhigh : truthy_opt (Some 0) = false) by reflexivity.
  split; [exact Hhigh|].
  exact (proj1 (@no_highbound_single_pass bisection_optimize unit
                  (fun _ _ => 1) tt 4%nat (- (1)) (Some 0) [] 1 (Int 2)
                  Hhigh)).
Defined.

Lemma find_function_first_root_sound_witness :
  let function : Q -> unit -> Q := fun x _ => x - (1 # 3) in
  exists x log,
    @find_function_first_root bisection_optimize unit function tt 1 0
      (Some 2) [] 1 inf
    = Return (Real x) log
    /\ ((function x tt == 0 /\ log = [])
        \/ (exists a b,
              x = @brentq bisection_optimize unit function a b tt
                    (1 / 10 ^ 20)
              /\ log = logger_debug
                         (skipped (function a tt) (function x tt)
                            (function b tt))
              /\ sign_change (function a tt) (function b tt) = true
              /\ Qabs (function x tt) < Qabs (function a tt)
              /\ Qabs (function x tt) < Qabs (function b tt))).
Proof.
  intros function.
  assert (E : @find_function_first_root bisection_optimize unit function tt
                1 0 (Some 2) [] 1 inf
              = Return (Real (683 # 2048))
                  (logger_debug (skipped (- (1 # 3)) (1 # 6144) (2 # 3))))
    by (vm_compute; reflexivity).
  exists (683 # 2048), (logger_debug (skipped (- (1 # 3)) (1 # 6144) (2 # 3))).
  split; [exact E|].
  exact (@find_function_first_root_sound bisection_optimize unit function tt
           1 0 (Some 2) [] 1 inf (Real (683 # 2048)) _ E).
Defined.


Lemma misdirected_search_returns_nothing_witness :
  ~ 1 == 0 /\ ~ - (1 # 4) == 0
  /\ (1 - 0) / - (1 # 4) <= 0
  /\ @find_function_first_root bisection_optimize unit (fun _ _ => 1) tt 7 0
       (Some 1) [] (- (1 # 4)) inf
     <> Return nan [].
Proof.
  assert (Hh : ~ 1 == 0) by (vm_compute; discriminate).
  assert (Hd : ~ - (1 # 4) == 0) by (vm_compute; discriminate).
  assert (Hq : (1 - 0) / - (1 # 4) <= 0) by (vm_compute; discriminate).
  split; [exact Hh|]. split; [exact Hd|]. split; [exact Hq|].
  exact (@misdirected_search_returns_nothing bisection_optimize unit
           (fun _ _ => 1) tt 0 1 Hh 7%nat (- (1 # 4)) inf nan [] Hd Hq Hh).
Defined.

Lemma brackets_halve_witness :
  let pole : Q -> unit -> Q := fun x _ => 1 / (x - 1) in
  0 <= 3
  /\ @bracket_reaches bisection_optimize unit pole tt 1
       (0, 3, pole 0 tt, pole 3 tt) (0, 3 # 2, - (1), 2)
  /\ (3 # 2) - 0 == (3 - 0) / inject_Z (2 ^ Z.of_nat 1)
  /\ 2 = pole (3 # 2) tt.
Proof.
  intros pole.
  assert (Hord : 0 <= 3) by (vm_compute; discriminate).
  assert (Hreach : @bracket_reaches bisection_optimize unit pole tt 1
                     (0, 3, pole 0 tt, pole 3 tt) (0, 3 # 2, - (1), 2)).
  { eapply bracket_next; [apply bracket_here|]. vm_compute. reflexivity. }
  split; [exact Hord|]. split; [exact Hreach|].
  pose proof (@brackets_halve bisection_optimize unit pole tt 1 0 3
                (0, 3 # 2, - (1), 2) Hord Hreach) as W.
  cbv beta iota zeta in W.
  destruct W as (_ & _ & _ & Hwidth & _ & Hy). split; [exact Hwidth|].
  exact Hy.
Defined.

Lemma _find_root_within_range_sound_witness :
  let function : Q -> unit -> Q := fun x _ => x - (1 # 3) in
  0 <= 1
  /\ @_find_root_within_range bisection_optimize unit function tt 0 1 20
     = (Real (683 # 2048), [])
  /\ exists a b,
       0 <= a /\ a <= b /\ b <= 1
       /\ 683 # 2048
          = @brentq bisection_optimize unit function a b tt brentq_xtol
       /\ Qabs (function (683 # 2048) tt) < Qabs (function a tt)
       /\ Qabs (function (683 # 2048) tt) < Qabs (function b tt).
Proof.
  intros function.
  assert (Hord : 0 <= 1) by (vm_compute; discriminate).
  assert (E : @_find_root_within_range bisection_optimize unit function tt
                0 1 20
              = (Real (683 # 2048), [])) by (vm_compute; reflexivity).
  split; [exact Hord|]. split; [exact E|].
  destruct (@_find_root_within_range_sound bisection_optimize unit function
              tt 0 1 20 (683 # 2048) [] Hord E)
    as (_ & a & b & H1 & H2 & H3 & Hx & _ & Ha & Hb).
  exists a, b. repeat split; assumption.
Defined.

Lemma one_sign_gives_nan_witness :
  (forall x : Q, 0 < (fun _ _ => 1) x tt)
  /\ @_find_root_within_range bisection_optimize unit (fun _ _ => 1) tt 0 1
       20
     = (nan, logger_warning max_iteration_reached).
Proof.
  assert (Hpos : forall x : Q, 0 < (fun (_ : Q) (_ : unit) => 1) x tt)
    by (intros x; reflexivity).
  split; [exact Hpos|].
  exact (@one_sign_gives_nan bisection_optimize unit (fun _ _ => 1) tt 0 1
           20 (or_introl Hpos)).
Defined.
